(** * Masked-position gather and LARS optimizer: a shallow embedding

    Two numerical components are embedded here.

    - [Gather] follows [gather_positions] of
      [applications/tensorflow2/bert/model/ipu_pretraining_model.py]: tensors
      are a shape together with their row-major element list, index
      arithmetic is 32-bit signed with its wrap-around written out, and every
      framework call that can raise returns [option].
    - [LARS] follows [LARSIpuOptimizer] of
      [applications/tensorflow2/image_classification/optimizers/lars_optimizer.py]:
      tensors of weights and gradients are lists of real numbers (rounding of
      the floating-point formats and the casts between them are idealised
      away, every cast is the identity), the optimizer object is a record and
      a dense apply step is a function on the pair (variable, accumulator).
      Where a property turns on that rounding, the conversion to a compute
      precision and the ratio formula are also given on binary
      floating-point numbers ([convert_float_to], [trust_ratio_where_fp]). *)

From Stdlib Require Import SpecFloat.
From Stdlib Require Import String Ascii.
From Stdlib Require Import List ZArith Lia Bool Arith.
From Stdlib Require Import Reals Lra Psatz.
Import ListNotations.

(** ** Part I: gather_positions *)

Module Gather.

Open Scope nat_scope.

(** A tensor: its shape and its elements in row-major order. *)
Record Tensor (T : Type) : Type := mkTensor {
  shape : list nat;
  data : list T
}.
Arguments mkTensor {T} _ _.
Arguments shape {T} _.
Arguments data {T} _.

Definition numel (sh : list nat) : nat := fold_right Nat.mul 1 sh.

(** The representation invariant of a tensor value. *)
Definition wf {T : Type} (t : Tensor T) : Prop :=
  length (data t) = numel (shape t).

Definition bind {X Y : Type} (o : option X) (k : X -> option Y) : option Y :=
  match o with
  | Some x => k x
  | None => None
  end.

Notation "x <- e ;; k" := (bind e (fun x => k))
  (at level 61, e at next level, right associativity).

(** 32-bit signed wrap-around of the int32 index arithmetic. *)
Definition wrap32 (z : Z) : Z :=
  ((z + 2 ^ 31) mod 2 ^ 32 - 2 ^ 31)%Z.

(** [tf.range(0, n, dtype=tf.int32)] *)
Definition range (n : nat) : Tensor Z :=
  mkTensor [n] (map (fun i => wrap32 (Z.of_nat i)) (seq 0 n)).

(** [t * k] for an int32 tensor and a Python integer. *)
Definition scalar_mul (t : Tensor Z) (k : nat) : Tensor Z :=
  mkTensor (shape t) (map (fun x => wrap32 (x * Z.of_nat k)) (data t)).

(** *** tf.reshape, with one dimension possibly left to be inferred (-1) *)

Definition known_product (dims : list Z) : Z :=
  fold_right (fun d acc => if (d =? -1)%Z then acc else (d * acc)%Z) 1%Z dims.

Definition count_infer (dims : list Z) : nat :=
  length (filter (fun d => (d =? -1)%Z) dims).

Definition resolve_dims (total : nat) (dims : list Z) : option (list nat) :=
  if forallb (fun d => (-1 <=? d)%Z) dims then
    match count_infer dims with
    | 0 =>
        if (known_product dims =? Z.of_nat total)%Z
        then Some (map Z.to_nat dims) else None
    | 1 =>
        let k := known_product dims in
        if ((0 <? k) && (Z.of_nat total mod k =? 0))%Z
        then Some (map (fun d => if (d =? -1)%Z
                                 then Z.to_nat (Z.of_nat total / k)
                                 else Z.to_nat d) dims)
        else None
    | _ => None
    end
  else None.

Definition reshape {T : Type} (t : Tensor T) (dims : list Z) : option (Tensor T) :=
  sh <- resolve_dims (length (data t)) dims ;;
  Some (mkTensor sh (data t)).

(** *** Element-wise addition of two rank-2 int32 tensors, with broadcasting *)

Definition bdim (a b : nat) : option nat :=
  if a =? b then Some a
  else if a =? 1 then Some b
  else if b =? 1 then Some a
  else None.

Definition bidx (d i : nat) : nat := if d =? 1 then 0 else i.

Definition tabulate2 {T : Type} (r c : nat) (f : nat -> nat -> T) : list T :=
  flat_map (fun i => map (f i) (seq 0 c)) (seq 0 r).

(** Element [i, j] of a rank-2 tensor with [c] columns. *)
Definition get2 (c : nat) (d : list Z) (i j : nat) : Z :=
  nth (i * c + j) d 0%Z.

Definition broadcast_add (x y : Tensor Z) : option (Tensor Z) :=
  match shape x, shape y with
  | [r1; c1], [r2; c2] =>
      r <- bdim r1 r2 ;;
      c <- bdim c1 c2 ;;
      Some (mkTensor [r; c]
              (tabulate2 r c (fun i j =>
                 wrap32 (get2 c1 (data x) (bidx r1 i) (bidx c1 j)
                         + get2 c2 (data y) (bidx r2 i) (bidx c2 j)))))
  | _, _ => None
  end.

(** *** The embedding lookup: rows of a rank-2 table at a list of indices.

    The lookup primitive belongs to the framework; an index outside the table
    has no specified result there, and is an error ([None]) here. *)

Definition row {T : Type} (h : nat) (d : list T) (i : nat) : list T :=
  firstn h (skipn (i * h) d).

Fixpoint lookup_rows {T : Type} (n h : nat) (d : list T) (idx : list Z)
  : option (list (list T)) :=
  match idx with
  | [] => Some []
  | i :: rest =>
      if ((0 <=? i) && (i <? Z.of_nat n))%Z
      then rows <- lookup_rows n h d rest ;; Some (row h d (Z.to_nat i) :: rows)
      else None
  end.

Definition embedding_lookup {T : Type} (table : Tensor T) (indices : Tensor Z)
  : option (Tensor T) :=
  match shape table, shape indices with
  | [n; h], [k] =>
      rows <- lookup_rows n h (data table) (data indices) ;;
      Some (mkTensor [k; h] (concat rows))
  | _, _ => None
  end.

(** *** gather_positions *)

Definition gather_positions {T : Type} (inputs : Tensor T) (positions : Tensor Z)
  : option (Tensor T) :=
  match shape inputs, shape positions with
  | [micro_batch_size; seq_length; hidden_size], [_; num_masked_tokens] =>
      flat_offsets <-
        reshape (scalar_mul (range micro_batch_size) seq_length) [-1; 1]%Z ;;
      shifted <- broadcast_add positions flat_offsets ;;
      flat_positions <- reshape shifted [-1]%Z ;;
      flat_sequence_tensor <-
        reshape inputs [Z.of_nat (micro_batch_size * seq_length);
                        Z.of_nat hidden_size] ;;
      output_tensor <- embedding_lookup flat_sequence_tensor flat_positions ;;
      reshape output_tensor [Z.of_nat micro_batch_size;
                             Z.of_nat num_masked_tokens;
                             Z.of_nat hidden_size]
  | _, _ => None
  end.

(** [t[b, m, :]] for a rank-3 tensor. *)
Definition slice3 {T : Type} (t : Tensor T) (b m : nat) : list T :=
  match shape t with
  | [_; d1; d2] => row d2 (data t) (b * d1 + m)
  | _ => []
  end.

(** [positions[b, m]] for a rank-2 index tensor. *)
Definition at2 (t : Tensor Z) (b m : nat) : Z :=
  match shape t with
  | [_; c] => get2 c (data t) b m
  | _ => 0%Z
  end.

(** The index tensor of shape (b, s) whose every row is 0, 1, ..., s-1. *)
Definition iota_positions (b s : nat) : Tensor Z :=
  mkTensor [b; s] (tabulate2 b s (fun _ j => Z.of_nat j)).

(** The scenario of the specification: B=2, S=4, H=3, values 0..23. *)
Definition hidden_0_23 : Tensor nat := mkTensor [2; 4; 3] (seq 0 24).
Definition positions_02_13 : Tensor Z := mkTensor [2; 2] [0; 2; 1; 3]%Z.

Example gather_scenario :
  gather_positions hidden_0_23 positions_02_13
  = Some (mkTensor [2; 2; 3] [0; 1; 2; 6; 7; 8; 15; 16; 17; 21; 22; 23]).
Proof. vm_compute. reflexivity. Qed.

(** *** Auxiliary facts *)

Lemma wrap32_small (z : Z) :
  (- 2 ^ 31 <= z < 2 ^ 31)%Z -> wrap32 z = z.
Proof.
  intros Hz. unfold wrap32.
  rewrite Z.mod_small by lia. lia.
Qed.

Lemma length_tabulate2 {T : Type} (r c : nat) (f : nat -> nat -> T) :
  length (tabulate2 r c f) = r * c.
Proof.
  unfold tabulate2. induction r as [|r IH].
  - reflexivity.
  - rewrite seq_S, flat_map_app, length_app, IH. simpl.
    rewrite app_nil_r, length_map, length_seq. lia.
Qed.

Lemma nth_tabulate2 {T : Type} (r c : nat) (f : nat -> nat -> T) (d : T) (i j : nat) :
  i < r -> j < c -> nth (i * c + j) (tabulate2 r c f) d = f i j.
Proof.
  induction r as [|r IH]; intros Hi Hj; [lia|].
  unfold tabulate2. rewrite seq_S, flat_map_app. simpl. rewrite app_nil_r.
  fold (tabulate2 r c f).
  destruct (Nat.eq_dec i r) as [->|Hne].
  - rewrite app_nth2; rewrite length_tabulate2; [|lia].
    replace (r * c + j - r * c) with j by lia.
    rewrite nth_indep with (d' := f r 0) by (rewrite length_map, length_seq; lia).
    rewrite map_nth, seq_nth by lia. reflexivity.
  - rewrite app_nth1 by (rewrite length_tabulate2; nia).
    apply IH; lia.
Qed.

Lemma tabulate2_ext {T : Type} (r c : nat) (f g : nat -> nat -> T) :
  (forall i j, i < r -> j < c -> f i j = g i j) ->
  tabulate2 r c f = tabulate2 r c g.
Proof.
  intros Hfg. unfold tabulate2.
  rewrite !flat_map_concat_map. f_equal.
  apply map_ext_in. intros i Hi. apply in_seq in Hi.
  apply map_ext_in. intros j Hj. apply in_seq in Hj.
  apply Hfg; lia.
Qed.

Lemma count_infer_of_nat (sh : list nat) :
  count_infer (map Z.of_nat sh) = 0.
Proof.
  unfold count_infer. induction sh as [|n sh IH]; simpl; [reflexivity|].
  destruct (Z.eqb_spec (Z.of_nat n) (-1)); [lia|exact IH].
Qed.

Lemma known_product_of_nat (sh : list nat) :
  known_product (map Z.of_nat sh) = Z.of_nat (numel sh).
Proof.
  unfold known_product. induction sh as [|n sh IH]; simpl; [reflexivity|].
  destruct (Z.eqb_spec (Z.of_nat n) (-1)); [lia|].
  rewrite IH. lia.
Qed.

Lemma forallb_of_nat (sh : list nat) :
  forallb (fun d => (-1 <=? d)%Z) (map Z.of_nat sh) = true.
Proof.
  induction sh as [|n sh IH]; simpl; [reflexivity|].
  rewrite IH, andb_true_r. apply Z.leb_le. lia.
Qed.

Lemma resolve_dims_explicit (total : nat) (sh : list nat) :
  numel sh = total -> resolve_dims total (map Z.of_nat sh) = Some sh.
Proof.
  intros Hn. unfold resolve_dims.
  rewrite forallb_of_nat, count_infer_of_nat, known_product_of_nat, Hn, Z.eqb_refl.
  f_equal. rewrite map_map. rewrite <- (map_id sh) at 2.
  apply map_ext. intros n. apply Nat2Z.id.
Qed.

Lemma resolve_dims_column (total : nat) :
  resolve_dims total [-1; 1]%Z = Some [total; 1].
Proof.
  unfold resolve_dims. cbn -[Z.modulo Z.div Z.of_nat].
  rewrite Z.mod_1_r, Z.div_1_r, Nat2Z.id. reflexivity.
Qed.

Lemma resolve_dims_flat (total : nat) :
  resolve_dims total [-1]%Z = Some [total].
Proof.
  unfold resolve_dims. cbn -[Z.modulo Z.div Z.of_nat].
  rewrite Z.mod_1_r, Z.div_1_r, Nat2Z.id. reflexivity.
Qed.

Lemma lookup_rows_in_range {T : Type} (n h : nat) (d : list T) (idx : list Z) :
  Forall (fun i => (0 <= i < Z.of_nat n)%Z) idx ->
  lookup_rows n h d idx = Some (map (fun i => row h d (Z.to_nat i)) idx).
Proof.
  induction 1 as [|i idx Hi _ IH]; simpl; [reflexivity|].
  replace ((0 <=? i)%Z && (i <? Z.of_nat n)%Z) with true
    by (symmetry; apply andb_true_iff; split; [apply Z.leb_le|apply Z.ltb_lt]; lia).
  rewrite IH. reflexivity.
Qed.

Lemma length_row {T : Type} (h : nat) (d : list T) (i : nat) :
  (i + 1) * h <= length d -> length (row h d i) = h.
Proof.
  intros Hlen. unfold row. rewrite length_firstn, length_skipn. nia.
Qed.

Lemma row_concat {T : Type} (h : nat) (rows : list (list T)) (k : nat) :
  Forall (fun l => length l = h) rows ->
  k < length rows ->
  row h (concat rows) k = nth k rows [].
Proof.
  intros Hall. revert k.
  induction Hall as [|l rows Hl _ IH]; intros k Hk; simpl in *; [lia|].
  unfold row in *. destruct k as [|k].
  - simpl. rewrite firstn_app, Hl, Nat.sub_diag, firstn_O, app_nil_r.
    rewrite <- Hl. apply firstn_all.
  - replace (S k * h) with (length l + k * h) by (simpl; lia).
    rewrite skipn_app, skipn_all2 by lia. simpl.
    replace (length l + k * h - length l) with (k * h) by lia.
    apply IH. lia.
Qed.

Lemma length_concat_rows {T : Type} (h : nat) (rows : list (list T)) :
  Forall (fun l => length l = h) rows ->
  length (concat rows) = length rows * h.
Proof.
  induction 1 as [|l rows Hl _ IH]; simpl; [reflexivity|].
  rewrite length_app, IH, Hl. reflexivity.
Qed.

(** The rows of a table, taken in order, are the table. *)
Lemma concat_rows_all {T : Type} (h n : nat) (d : list T) :
  length d = n * h ->
  concat (map (row h d) (seq 0 n)) = d.
Proof.
  revert d. induction n as [|n IH]; intros d Hd.
  - simpl in *. destruct d; [reflexivity|discriminate].
  - rewrite seq_S, map_app, concat_app. simpl. rewrite app_nil_r.
    transitivity (firstn (n * h) d ++ skipn (n * h) d); [|apply firstn_skipn].
    f_equal.
    + etransitivity;
        [|apply (IH (firstn (n * h) d)); rewrite length_firstn; nia].
      f_equal. apply map_ext_in. intros i Hi. apply in_seq in Hi.
      unfold row. rewrite skipn_firstn_comm, firstn_firstn.
      f_equal. nia.
    + unfold row. apply firstn_all2. rewrite length_skipn. nia.
Qed.

Lemma Forall_tabulate2 {T : Type} (P : T -> Prop) (r c : nat) (f : nat -> nat -> T) :
  (forall i j, i < r -> j < c -> P (f i j)) -> Forall P (tabulate2 r c f).
Proof.
  intros Hf. apply Forall_forall. intros x Hx.
  unfold tabulate2 in Hx. apply in_flat_map in Hx as [i [Hi Hx]].
  apply in_map_iff in Hx as [j [<- Hj]].
  apply in_seq in Hi. apply in_seq in Hj. apply Hf; lia.
Qed.

Lemma map_seq_offset {T : Type} (f : nat -> T) (a c : nat) :
  map (fun j => f (a + j)) (seq 0 c) = map f (seq a c).
Proof.
  revert a. induction c as [|c IH]; intros a; simpl; [reflexivity|].
  rewrite Nat.add_0_r. f_equal.
  rewrite <- seq_shift, map_map, <- IH.
  apply map_ext. intros j. f_equal. lia.
Qed.

Lemma tabulate2_linear {T : Type} (r c : nat) (f : nat -> T) :
  tabulate2 r c (fun i j => f (i * c + j)) = map f (seq 0 (r * c)).
Proof.
  unfold tabulate2. induction r as [|r IH]; [reflexivity|].
  rewrite seq_S, flat_map_app, IH. simpl. rewrite app_nil_r.
  replace (c + r * c) with (r * c + c) by lia.
  rewrite seq_app, map_app. f_equal. apply map_seq_offset.
Qed.

Lemma flat_index_lt (B S b p : nat) :
  b < B -> p < S -> b * S + p < B * S.
Proof. intros Hb Hp. nia. Qed.

Lemma bidx_lt (d i : nat) : i < d -> bidx d i = i.
Proof. unfold bidx. destruct (Nat.eqb_spec d 1); lia. Qed.

Lemma bdim_same (a : nat) : bdim a a = Some a.
Proof. unfold bdim. rewrite Nat.eqb_refl. reflexivity. Qed.

Lemma bdim_one_r (a : nat) : bdim a 1 = Some a.
Proof.
  unfold bdim. destruct (Nat.eqb_spec a 1) as [->|_]; reflexivity.
Qed.

Lemma nth_offsets (B S i : nat) :
  i < B ->
  nth i (data (scalar_mul (range B) S)) 0%Z
  = wrap32 (wrap32 (Z.of_nat i) * Z.of_nat S).
Proof.
  intros Hi. simpl. rewrite map_map.
  rewrite nth_indep with (d' := wrap32 (wrap32 (Z.of_nat 0) * Z.of_nat S))
    by (rewrite length_map, length_seq; exact Hi).
  rewrite (map_nth (fun i => wrap32 (wrap32 (Z.of_nat i) * Z.of_nat S))).
  rewrite seq_nth by exact Hi. reflexivity.
Qed.

(** Inside the int32 range the shifted position is the flat index. *)
Lemma shifted_entry (positions : Tensor Z) (B S M b m : nat) :
  shape positions = [B; M] ->
  (Z.of_nat (B * S) <= 2 ^ 31)%Z ->
  b < B -> m < M ->
  (0 <= at2 positions b m < Z.of_nat S)%Z ->
  wrap32 (get2 M (data positions) (bidx B b) (bidx M m)
          + get2 1 (data (scalar_mul (range B) S)) (bidx B b) (bidx 1 m))
  = Z.of_nat (b * S + Z.to_nat (at2 positions b m)).
Proof.
  intros Hsh Hfit Hb Hm Hp.
  unfold at2 in *. rewrite Hsh in *.
  rewrite !bidx_lt by assumption.
  unfold bidx at 1. simpl (1 =? 1).
  unfold get2 at 2. rewrite Nat.mul_1_r, Nat.add_0_r, nth_offsets by exact Hb.
  assert (Hbs : (Z.of_nat b * Z.of_nat S + Z.of_nat S <= 2 ^ 31)%Z) by nia.
  rewrite (wrap32_small (Z.of_nat b)) by nia.
  rewrite (wrap32_small (Z.of_nat b * Z.of_nat S)) by nia.
  rewrite wrap32_small by nia.
  lia.
Qed.

(** The value computed by [gather_positions] on a well-formed call. *)
Lemma gather_positions_eq {T : Type} (inputs : Tensor T) (positions : Tensor Z)
      (B S H M : nat) :
  shape inputs = [B; S; H] -> wf inputs ->
  shape positions = [B; M] ->
  (Z.of_nat (B * S) <= 2 ^ 31)%Z ->
  (forall b m, b < B -> m < M -> (0 <= at2 positions b m < Z.of_nat S)%Z) ->
  gather_positions inputs positions
  = Some (mkTensor [B; M; H]
            (concat (tabulate2 B M (fun b m =>
               row H (data inputs) (b * S + Z.to_nat (at2 positions b m)))))).
Proof.
  intros Hin Hwf Hpos Hfit Hrange.
  unfold wf in Hwf. rewrite Hin in Hwf. simpl in Hwf.
  unfold gather_positions. rewrite Hin, Hpos.
  unfold reshape at 1.
  replace (length (data (scalar_mul (range B) S))) with B
    by (simpl; rewrite !length_map, length_seq; reflexivity).
  rewrite resolve_dims_column. cbn [bind].
  unfold broadcast_add. rewrite Hpos. cbn [shape bind].
  rewrite bdim_same, bdim_one_r. cbn [bind data].
  rewrite (tabulate2_ext B M _
             (fun b m => Z.of_nat (b * S + Z.to_nat (at2 positions b m))))
    by (intros b m Hb Hm; apply shifted_entry; auto).
  unfold reshape at 1. cbn [data]. rewrite length_tabulate2.
  rewrite resolve_dims_flat. cbn [bind].
  unfold reshape at 1.
  change [Z.of_nat (B * S); Z.of_nat H] with (map Z.of_nat [B * S; H]).
  rewrite (resolve_dims_explicit (length (data inputs)) [B * S; H])
    by (simpl; lia).
  cbn [bind]. unfold embedding_lookup. cbn [shape data].
  rewrite lookup_rows_in_range.
  2:{ apply Forall_tabulate2. intros b m Hb Hm.
      specialize (Hrange b m Hb Hm). nia. }
  cbn [bind].
  assert (Hrows : map (fun i => row H (data inputs) (Z.to_nat i))
                    (tabulate2 B M (fun b m =>
                       Z.of_nat (b * S + Z.to_nat (at2 positions b m))))
                  = tabulate2 B M (fun b m =>
                       row H (data inputs) (b * S + Z.to_nat (at2 positions b m)))).
  { unfold tabulate2. rewrite !flat_map_concat_map, concat_map, map_map.
    f_equal. apply map_ext. intros b. rewrite map_map.
    apply map_ext. intros m. rewrite Nat2Z.id. reflexivity. }
  rewrite Hrows.
  unfold reshape. cbn [data].
  change [Z.of_nat B; Z.of_nat M; Z.of_nat H] with (map Z.of_nat [B; M; H]).
  rewrite (resolve_dims_explicit _ [B; M; H]); [reflexivity|].
  rewrite (length_concat_rows H).
  - rewrite length_tabulate2. simpl. ring.
  - apply Forall_tabulate2. intros b m Hb Hm. apply length_row.
    specialize (Hrange b m Hb Hm).
    rewrite Hwf.
    replace (B * (S * (H * 1))) with (B * S * H) by ring.
    apply Nat.mul_le_mono_r.
    pose proof (flat_index_lt B S b (Z.to_nat (at2 positions b m)) Hb).
    lia.
Qed.

(** *** Properties of gather_positions *)

(** C1. For a hidden-state tensor of shape (B, S, H) and a position tensor of
    shape (B, M) whose entries all lie in [0, S), with the flattened index
    range B*S inside int32, [gather_positions] returns a tensor of shape
    (B, M, H) whose slice [b, m, :] is, element for element, the slice
    [b, position[b, m], :] of the hidden states, for all b < B and m < M.
    The element type is arbitrary: no arithmetic touches the elements. *)
Theorem gather_positions_spec {T : Type} (inputs : Tensor T) (positions : Tensor Z)
        (B S H M : nat) :
  shape inputs = [B; S; H] -> wf inputs ->
  shape positions = [B; M] ->
  (Z.of_nat (B * S) <= 2 ^ 31)%Z ->
  (forall b m, b < B -> m < M -> (0 <= at2 positions b m < Z.of_nat S)%Z) ->
  exists out,
    gather_positions inputs positions = Some out
    /\ shape out = [B; M; H]
    /\ wf out
    /\ forall b m, b < B -> m < M ->
         length (slice3 out b m) = H
         /\ slice3 out b m = slice3 inputs b (Z.to_nat (at2 positions b m)).
Proof.
  intros Hin Hwf Hpos Hfit Hrange.
  pose proof (gather_positions_eq inputs positions B S H M
                Hin Hwf Hpos Hfit Hrange) as Heq.
  unfold wf in Hwf. rewrite Hin in Hwf. simpl in Hwf.
  assert (Hlen : Forall (fun l => length l = H)
            (tabulate2 B M (fun b m =>
               row H (data inputs) (b * S + Z.to_nat (at2 positions b m))))).
  { apply Forall_tabulate2. intros b m Hb Hm. apply length_row.
    specialize (Hrange b m Hb Hm). rewrite Hwf.
    replace (B * (S * (H * 1))) with (B * S * H) by ring.
    apply Nat.mul_le_mono_r.
    pose proof (flat_index_lt B S b (Z.to_nat (at2 positions b m)) Hb).
    lia. }
  eexists. split; [exact Heq|]. split; [reflexivity|]. split.
  - unfold wf. cbn [data shape].
    rewrite (length_concat_rows H) by exact Hlen.
    rewrite length_tabulate2. simpl. ring.
  - intros b m Hb Hm.
    assert (Hslice : slice3 (mkTensor [B; M; H]
                (concat (tabulate2 B M (fun b m =>
                   row H (data inputs) (b * S + Z.to_nat (at2 positions b m))))))
                b m
              = slice3 inputs b (Z.to_nat (at2 positions b m))).
    { unfold slice3. cbn [shape data]. rewrite Hin.
      rewrite (row_concat H) by
        (try exact Hlen; rewrite length_tabulate2; apply flat_index_lt; assumption).
      apply (nth_tabulate2 B M (fun b m =>
               row H (data inputs) (b * S + Z.to_nat (at2 positions b m))));
        assumption. }
    split; [|exact Hslice].
    rewrite Hslice. unfold slice3. rewrite Hin. apply length_row.
    specialize (Hrange b m Hb Hm). rewrite Hwf.
    replace (B * (S * (H * 1))) with (B * S * H) by ring.
    apply Nat.mul_le_mono_r.
    pose proof (flat_index_lt B S b (Z.to_nat (at2 positions b m)) Hb).
    lia.
Qed.

Lemma gather_positions_spec_witness :
  exists out,
    gather_positions hidden_0_23 positions_02_13 = Some out
    /\ shape out = [2; 2; 3]
    /\ wf out
    /\ forall b m, b < 2 -> m < 2 ->
         length (slice3 out b m) = 3
         /\ slice3 out b m
            = slice3 hidden_0_23 b (Z.to_nat (at2 positions_02_13 b m)).
Proof.
  apply (gather_positions_spec hidden_0_23 positions_02_13 2 4 3 2).
  - reflexivity.
  - reflexivity.
  - reflexivity.
  - simpl. lia.
  - intros b m Hb Hm.
    destruct b as [|[|b]]; [| |lia];
      (destruct m as [|[|m]]; [| |lia]); vm_compute; split; congruence.
Defined.

(** C8. Gathering at the positions 0, 1, ..., S-1, in order, for every batch
    element gives back the hidden-state tensor itself. *)
Theorem gather_positions_iota {T : Type} (inputs : Tensor T) (B S H : nat) :
  shape inputs = [B; S; H] -> wf inputs ->
  (Z.of_nat (B * S) <= 2 ^ 31)%Z ->
  gather_positions inputs (iota_positions B S) = Some inputs.
Proof.
  intros Hin Hwf Hfit.
  assert (Hat : forall b m, b < B -> m < S ->
            at2 (iota_positions B S) b m = Z.of_nat m).
  { intros b m Hb Hm. unfold at2, iota_positions, get2. cbn [shape data].
    apply nth_tabulate2; assumption. }
  rewrite (gather_positions_eq inputs (iota_positions B S) B S H S
             Hin Hwf eq_refl Hfit)
    by (intros b m Hb Hm; rewrite Hat by assumption; lia).
  rewrite (tabulate2_ext B S _ (fun b m => row H (data inputs) (b * S + m)))
    by (intros b m Hb Hm; rewrite Hat, Nat2Z.id by assumption; reflexivity).
  rewrite (tabulate2_linear B S (row H (data inputs))).
  rewrite concat_rows_all
    by (unfold wf in Hwf; rewrite Hwf, Hin; simpl; ring).
  destruct inputs as [sh d]. simpl in *. subst sh. reflexivity.
Qed.

Lemma gather_positions_iota_witness :
  gather_positions hidden_0_23 (iota_positions 2 4) = Some hidden_0_23.
Proof.
  apply (gather_positions_iota hidden_0_23 2 4 3).
  - reflexivity.
  - reflexivity.
  - simpl. lia.
Defined.

(** *** Further properties of gather_positions *)

(** Positions are not checked against the sequence length: the lookup sees
    only the flat index. *)
Lemma shifted_entry_flat (pd : list Z) (B Bp S M b m : nat) :
  (Z.of_nat (B * S) <= 2 ^ 31)%Z ->
  b < B -> m < M ->
  (0 <= Z.of_nat (b * S) + get2 M pd (bidx Bp b) m < Z.of_nat (B * S))%Z ->
  wrap32 (get2 M pd (bidx Bp b) (bidx M m)
          + get2 1 (data (scalar_mul (range B) S)) (bidx B b) (bidx 1 m))
  = (Z.of_nat (b * S) + get2 M pd (bidx Bp b) m)%Z.
Proof.
  intros Hfit Hb Hm Hp.
  rewrite (bidx_lt M m), (bidx_lt B b) by assumption.
  unfold bidx at 2. simpl (1 =? 1).
  unfold get2 at 2. rewrite Nat.mul_1_r, Nat.add_0_r, nth_offsets by exact Hb.
  assert (HS : 0 < S) by nia.
  assert (Hbs : (Z.of_nat b * Z.of_nat S + Z.of_nat S <= 2 ^ 31)%Z) by nia.
  rewrite (wrap32_small (Z.of_nat b)) by nia.
  rewrite (wrap32_small (Z.of_nat b * Z.of_nat S)) by nia.
  rewrite wrap32_small by nia.
  lia.
Qed.

Lemma bdim_one_l (a : nat) : bdim 1 a = Some a.
Proof.
  unfold bdim. destruct (Nat.eqb_spec 1 a) as [<-|_]; reflexivity.
Qed.

(** The value of [gather_positions] in terms of flat indices, for a position
    tensor with one row per batch element ([Bp = B]) or a single row
    ([Bp = 1]). *)
Lemma gather_positions_flat {T : Type} (inputs : Tensor T) (positions : Tensor Z)
      (B Bp S H M : nat) :
  shape inputs = [B; S; H] -> wf inputs ->
  shape positions = [Bp; M] ->
  Bp = B \/ Bp = 1 ->
  (Z.of_nat (B * S) <= 2 ^ 31)%Z ->
  (forall b m, b < B -> m < M ->
     (0 <= Z.of_nat (b * S) + get2 M (data positions) (bidx Bp b) m
      < Z.of_nat (B * S))%Z) ->
  gather_positions inputs positions
  = Some (mkTensor [B; M; H]
            (concat (tabulate2 B M (fun b m =>
               row H (data inputs)
                 (Z.to_nat (Z.of_nat (b * S)
                            + get2 M (data positions) (bidx Bp b) m)))))).
Proof.
  intros Hin Hwf Hpos HBp Hfit Hrange.
  unfold wf in Hwf. rewrite Hin in Hwf. simpl in Hwf.
  unfold gather_positions. rewrite Hin, Hpos.
  unfold reshape at 1.
  replace (length (data (scalar_mul (range B) S))) with B
    by (simpl; rewrite !length_map, length_seq; reflexivity).
  rewrite resolve_dims_column. cbn [bind].
  unfold broadcast_add. rewrite Hpos. cbn [shape bind].
  replace (bdim Bp B) with (Some B)
    by (destruct HBp as [->| ->]; [rewrite bdim_same|rewrite bdim_one_l]; reflexivity).
  rewrite bdim_one_r. cbn [bind data].
  rewrite (tabulate2_ext B M _
             (fun b m => (Z.of_nat (b * S)
                          + get2 M (data positions) (bidx Bp b) m)%Z))
    by (intros b m Hb Hm; apply shifted_entry_flat; auto).
  unfold reshape at 1. cbn [data]. rewrite length_tabulate2.
  rewrite resolve_dims_flat. cbn [bind].
  unfold reshape at 1.
  change [Z.of_nat (B * S); Z.of_nat H] with (map Z.of_nat [B * S; H]).
  rewrite (resolve_dims_explicit (length (data inputs)) [B * S; H])
    by (simpl; lia).
  cbn [bind]. unfold embedding_lookup. cbn [shape data].
  rewrite lookup_rows_in_range
    by (apply Forall_tabulate2; intros b m Hb Hm; apply Hrange; assumption).
  cbn [bind].
  assert (Hrows : forall f : nat -> nat -> Z,
            map (fun i => row H (data inputs) (Z.to_nat i)) (tabulate2 B M f)
            = tabulate2 B M (fun b m => row H (data inputs) (Z.to_nat (f b m)))).
  { intros f. unfold tabulate2.
    rewrite !flat_map_concat_map, concat_map, map_map.
    f_equal. apply map_ext. intros b. rewrite map_map. reflexivity. }
  rewrite Hrows.
  unfold reshape. cbn [data].
  change [Z.of_nat B; Z.of_nat M; Z.of_nat H] with (map Z.of_nat [B; M; H]).
  rewrite (resolve_dims_explicit _ [B; M; H]); [reflexivity|].
  rewrite (length_concat_rows H).
  - rewrite length_tabulate2. simpl. ring.
  - apply Forall_tabulate2. intros b m Hb Hm. apply length_row.
    specialize (Hrange b m Hb Hm). rewrite Hwf.
    replace (B * (S * (H * 1))) with (B * S * H) by ring.
    apply Nat.mul_le_mono_r. lia.
Qed.

Lemma gathered_rows_length {T : Type} (d : list T) (B S H M : nat)
      (f : nat -> nat -> Z) :
  length d = B * S * H ->
  (forall b m, b < B -> m < M -> (0 <= f b m < Z.of_nat (B * S))%Z) ->
  Forall (fun l => length l = H)
    (tabulate2 B M (fun b m => row H d (Z.to_nat (f b m)))).
Proof.
  intros Hd Hf. apply Forall_tabulate2. intros b m Hb Hm.
  apply length_row. specialize (Hf b m Hb Hm). rewrite Hd.
  apply Nat.mul_le_mono_r. lia.
Qed.

(** X1. A position outside [0, S) is not detected as long as its flat index
    b*S + position stays inside the flattened table: the slice read is the one
    of the batch element and offset that the flat index denotes. *)
Theorem gather_positions_reads_flat_index {T : Type} (inputs : Tensor T)
        (positions : Tensor Z) (B S H M : nat) :
  shape inputs = [B; S; H] -> wf inputs ->
  shape positions = [B; M] ->
  (Z.of_nat (B * S) <= 2 ^ 31)%Z ->
  (forall b m, b < B -> m < M ->
     (0 <= Z.of_nat (b * S) + at2 positions b m < Z.of_nat (B * S))%Z) ->
  exists out,
    gather_positions inputs positions = Some out
    /\ shape out = [B; M; H]
    /\ forall b m b' p', b < B -> m < M -> b' < B -> p' < S ->
         (Z.of_nat (b * S) + at2 positions b m)%Z = Z.of_nat (b' * S + p') ->
         slice3 out b m = slice3 inputs b' p'.
Proof.
  intros Hin Hwf Hpos Hfit Hrange.
  assert (Hat : forall b m, b < B ->
            get2 M (data positions) (bidx B b) m = at2 positions b m).
  { intros b m Hb. unfold at2. rewrite Hpos, bidx_lt by exact Hb. reflexivity. }
  assert (Hrange' : forall b m, b < B -> m < M ->
            (0 <= Z.of_nat (b * S) + get2 M (data positions) (bidx B b) m
             < Z.of_nat (B * S))%Z).
  { intros b m Hb Hm. rewrite Hat by exact Hb. apply Hrange; assumption. }
  rewrite (gather_positions_flat inputs positions B B S H M
             Hin Hwf Hpos (or_introl eq_refl) Hfit Hrange').
  eexists. split; [reflexivity|]. split; [reflexivity|].
  intros b m b' p' Hb Hm Hb' Hp' Hflat.
  unfold slice3. cbn [shape data]. rewrite Hin.
  rewrite (row_concat H).
  - rewrite (nth_tabulate2 B M (fun b m =>
               row H (data inputs)
                 (Z.to_nat (Z.of_nat (b * S)
                            + get2 M (data positions) (bidx B b) m))))
      by assumption.
    rewrite Hat, Hflat, Nat2Z.id by exact Hb. reflexivity.
  - apply (gathered_rows_length (data inputs) B S H M
             (fun b m => (Z.of_nat (b * S)
                          + get2 M (data positions) (bidx B b) m)%Z)).
    + unfold wf in Hwf. rewrite Hwf, Hin. simpl. ring.
    + exact Hrange'.
  - rewrite length_tabulate2. apply flat_index_lt; assumption.
Qed.

Definition positions_52_13 : Tensor Z := mkTensor [2; 2] [5; 2; 1; 3]%Z.

Lemma gather_positions_reads_flat_index_witness :
  exists out,
    gather_positions hidden_0_23 positions_52_13 = Some out
    /\ shape out = [2; 2; 3]
    /\ forall b m b' p', b < 2 -> m < 2 -> b' < 2 -> p' < 4 ->
         (Z.of_nat (b * 4) + at2 positions_52_13 b m)%Z = Z.of_nat (b' * 4 + p') ->
         slice3 out b m = slice3 hidden_0_23 b' p'.
Proof.
  apply (gather_positions_reads_flat_index hidden_0_23 positions_52_13 2 4 3 2).
  - reflexivity.
  - reflexivity.
  - reflexivity.
  - simpl. lia.
  - intros b m Hb Hm.
    destruct b as [|[|b]]; [| |lia];
      (destruct m as [|[|m]]; [| |lia]); vm_compute; split; congruence.
Defined.

(** X2. A position tensor with a single row is broadcast over the batch: every
    batch element is gathered at the positions of that row. *)
Theorem gather_positions_single_row {T : Type} (inputs : Tensor T)
        (positions : Tensor Z) (B S H M : nat) :
  shape inputs = [B; S; H] -> wf inputs ->
  shape positions = [1; M] ->
  (Z.of_nat (B * S) <= 2 ^ 31)%Z ->
  (forall m, m < M -> (0 <= at2 positions 0 m < Z.of_nat S)%Z) ->
  exists out,
    gather_positions inputs positions = Some out
    /\ shape out = [B; M; H]
    /\ forall b m, b < B -> m < M ->
         slice3 out b m = slice3 inputs b (Z.to_nat (at2 positions 0 m)).
Proof.
  intros Hin Hwf Hpos Hfit Hrange.
  assert (Hat : forall b m,
            get2 M (data positions) (bidx 1 b) m = at2 positions 0 m).
  { intros b m. unfold at2. rewrite Hpos. reflexivity. }
  assert (Hrange' : forall b m, b < B -> m < M ->
            (0 <= Z.of_nat (b * S) + get2 M (data positions) (bidx 1 b) m
             < Z.of_nat (B * S))%Z).
  { intros b m Hb Hm. rewrite Hat. specialize (Hrange m Hm).
    pose proof (flat_index_lt B S b (Z.to_nat (at2 positions 0 m)) Hb). lia. }
  rewrite (gather_positions_flat inputs positions B 1 S H M
             Hin Hwf Hpos (or_intror eq_refl) Hfit Hrange').
  eexists. split; [reflexivity|]. split; [reflexivity|].
  intros b m Hb Hm.
  unfold slice3. cbn [shape data]. rewrite Hin.
  rewrite (row_concat H).
  - rewrite (nth_tabulate2 B M (fun b m =>
               row H (data inputs)
                 (Z.to_nat (Z.of_nat (b * S)
                            + get2 M (data positions) (bidx 1 b) m))))
      by assumption.
    rewrite Hat. f_equal. specialize (Hrange m Hm). lia.
  - apply (gathered_rows_length (data inputs) B S H M
             (fun b m => (Z.of_nat (b * S)
                          + get2 M (data positions) (bidx 1 b) m)%Z)).
    + unfold wf in Hwf. rewrite Hwf, Hin. simpl. ring.
    + exact Hrange'.
  - rewrite length_tabulate2. apply flat_index_lt; assumption.
Qed.

Definition positions_row_13 : Tensor Z := mkTensor [1; 2] [1; 3]%Z.

Lemma gather_positions_single_row_witness :
  exists out,
    gather_positions hidden_0_23 positions_row_13 = Some out
    /\ shape out = [2; 2; 3]
    /\ forall b m, b < 2 -> m < 2 ->
         slice3 out b m
         = slice3 hidden_0_23 b (Z.to_nat (at2 positions_row_13 0 m)).
Proof.
  apply (gather_positions_single_row hidden_0_23 positions_row_13 2 4 3 2).
  - reflexivity.
  - reflexivity.
  - reflexivity.
  - simpl. lia.
  - intros m Hm. destruct m as [|[|m]]; [| |lia]; vm_compute; split; congruence.
Defined.

Lemma resolve_dims_explicit_mismatch (total : nat) (sh : list nat) :
  numel sh <> total -> resolve_dims total (map Z.of_nat sh) = None.
Proof.
  intros Hn. unfold resolve_dims.
  rewrite forallb_of_nat, count_infer_of_nat, known_product_of_nat.
  destruct (Z.eqb_spec (Z.of_nat (numel sh)) (Z.of_nat total)); [lia|reflexivity].
Qed.

Lemma lookup_rows_length {T : Type} (n h : nat) (d : list T) (idx : list Z)
      (rows : list (list T)) :
  n * h <= length d ->
  lookup_rows n h d idx = Some rows ->
  length (concat rows) = length idx * h.
Proof.
  intros Hd. revert rows. induction idx as [|i idx IH]; intros rows Hrows.
  - injection Hrows as <-. reflexivity.
  - simpl in Hrows.
    destruct ((0 <=? i)%Z && (i <? Z.of_nat n)%Z) eqn:Hi; [|discriminate].
    destruct (lookup_rows n h d idx) as [rest|]; [|discriminate].
    injection Hrows as <-. simpl. rewrite length_app, (IH rest eq_refl).
    apply andb_true_iff in Hi as [Hi0 Hin].
    apply Z.leb_le in Hi0. apply Z.ltb_lt in Hin.
    rewrite length_row; [reflexivity|]. nia.
Qed.

(** X3. A position tensor whose batch dimension is neither that of the hidden
    states nor 1 is rejected: the call raises whenever the result would not be
    empty. *)
Theorem gather_positions_batch_mismatch {T : Type} (inputs : Tensor T)
        (positions : Tensor Z) (B Bp S H M : nat) :
  shape inputs = [B; S; H] -> wf inputs ->
  shape positions = [Bp; M] ->
  Bp <> B -> Bp <> 1 -> 0 < M -> 0 < H ->
  gather_positions inputs positions = None.
Proof.
  intros Hin Hwf Hpos HneB Hne1 HM HH.
  unfold wf in Hwf. rewrite Hin in Hwf. simpl in Hwf.
  unfold gather_positions. rewrite Hin, Hpos.
  unfold reshape at 1.
  replace (length (data (scalar_mul (range B) S))) with B
    by (simpl; rewrite !length_map, length_seq; reflexivity).
  rewrite resolve_dims_column. cbn [bind].
  unfold broadcast_add. rewrite Hpos. cbn [shape bind].
  destruct (Nat.eq_dec B 1) as [->|HB1].
  - rewrite bdim_one_r, bdim_one_r. cbn [bind data].
    unfold reshape at 1. cbn [data]. rewrite length_tabulate2.
    rewrite resolve_dims_flat. cbn [bind].
    unfold reshape at 1.
    change [Z.of_nat (1 * S); Z.of_nat H] with (map Z.of_nat [1 * S; H]).
    rewrite (resolve_dims_explicit (length (data inputs)) [1 * S; H])
      by (simpl; lia).
    cbn [bind]. unfold embedding_lookup. cbn [shape data].
    destruct (lookup_rows (1 * S) H (data inputs) _) as [rows|] eqn:Hrows;
      [|reflexivity].
    cbn [bind]. unfold reshape. cbn [data].
    apply lookup_rows_length in Hrows; [|lia].
    rewrite length_tabulate2 in Hrows. rewrite Hrows.
    change [Z.of_nat 1; Z.of_nat M; Z.of_nat H] with (map Z.of_nat [1; M; H]).
    rewrite resolve_dims_explicit_mismatch; [reflexivity|].
    simpl. nia.
  - unfold bdim at 1.
    destruct (Nat.eqb_spec Bp B); [contradiction|].
    destruct (Nat.eqb_spec Bp 1); [contradiction|].
    destruct (Nat.eqb_spec B 1); [contradiction|].
    reflexivity.
Qed.

Lemma gather_positions_batch_mismatch_witness :
  gather_positions hidden_0_23 (mkTensor [3; 2] [0; 2; 1; 3; 0; 1]%Z) = None.
Proof.
  apply (gather_positions_batch_mismatch hidden_0_23 _ 2 3 4 3 2);
    try reflexivity; lia.
Defined.

(** The positions of a second gather, read through a first one. *)
Definition compose_positions (first second : Tensor Z) : Tensor Z :=
  match shape second with
  | [b; m] =>
      mkTensor [b; m]
        (tabulate2 b m (fun i j => at2 first i (Z.to_nat (at2 second i j))))
  | _ => second
  end.

(** X4. Two gathers in a row are one gather at the composed positions. *)
Theorem gather_positions_compose {T : Type} (inputs : Tensor T)
        (first second : Tensor Z) (B S H M N : nat) :
  shape inputs = [B; S; H] -> wf inputs ->
  shape first = [B; M] -> shape second = [B; N] ->
  (Z.of_nat (B * S) <= 2 ^ 31)%Z ->
  (Z.of_nat (B * M) <= 2 ^ 31)%Z ->
  (forall b m, b < B -> m < M -> (0 <= at2 first b m < Z.of_nat S)%Z) ->
  (forall b n, b < B -> n < N -> (0 <= at2 second b n < Z.of_nat M)%Z) ->
  exists mid,
    gather_positions inputs first = Some mid
    /\ gather_positions mid second
       = gather_positions inputs (compose_positions first second).
Proof.
  intros Hin Hwf Hfirst Hsecond HfitS HfitM Hr1 Hr2.
  rewrite (gather_positions_eq inputs first B S H M Hin Hwf Hfirst HfitS Hr1).
  eexists. split; [reflexivity|].
  assert (Hlen : length (data inputs) = B * S * H)
    by (unfold wf in Hwf; rewrite Hwf, Hin; simpl; ring).
  assert (Hrows : Forall (fun l => length l = H)
            (tabulate2 B M (fun b m =>
               row H (data inputs) (b * S + Z.to_nat (at2 first b m))))).
  { apply Forall_tabulate2. intros b m Hb Hm. apply length_row.
    specialize (Hr1 b m Hb Hm). rewrite Hlen. apply Nat.mul_le_mono_r.
    pose proof (flat_index_lt B S b (Z.to_nat (at2 first b m)) Hb). lia. }
  rewrite (gather_positions_eq
             (mkTensor [B; M; H]
                (concat (tabulate2 B M (fun b m =>
                   row H (data inputs) (b * S + Z.to_nat (at2 first b m))))))
             second B M H N eq_refl).
  2:{ unfold wf. cbn [data shape]. rewrite (length_concat_rows H) by exact Hrows.
      rewrite length_tabulate2. simpl. ring. }
  2: exact Hsecond. 2: exact HfitM. 2: exact Hr2.
  assert (Hcomp : shape (compose_positions first second) = [B; N])
    by (unfold compose_positions; rewrite Hsecond; reflexivity).
  assert (Hat : forall b n, b < B -> n < N ->
            at2 (compose_positions first second) b n
            = at2 first b (Z.to_nat (at2 second b n))).
  { intros b n Hb Hn. unfold compose_positions. rewrite Hsecond.
    unfold at2 at 1. cbn [shape data]. unfold get2.
    apply (nth_tabulate2 B N (fun i j => at2 first i (Z.to_nat (at2 second i j))));
      assumption. }
  rewrite (gather_positions_eq inputs (compose_positions first second)
             B S H N Hin Hwf Hcomp HfitS).
  2:{ intros b n Hb Hn. rewrite Hat by assumption.
      apply Hr1; [exact Hb|]. specialize (Hr2 b n Hb Hn). lia. }
  do 3 f_equal. cbn [data].
  apply tabulate2_ext. intros b n Hb Hn.
  rewrite Hat by assumption.
  specialize (Hr2 b n Hb Hn).
  rewrite (row_concat H) by
    (try exact Hrows; rewrite length_tabulate2; apply flat_index_lt; lia).
  apply (nth_tabulate2 B M (fun b m =>
           row H (data inputs) (b * S + Z.to_nat (at2 first b m)))); lia.
Qed.

Definition positions_10_01 : Tensor Z := mkTensor [2; 2] [1; 0; 0; 1]%Z.

Lemma gather_positions_compose_witness :
  exists mid,
    gather_positions hidden_0_23 positions_02_13 = Some mid
    /\ gather_positions mid positions_10_01
       = gather_positions hidden_0_23
           (compose_positions positions_02_13 positions_10_01).
Proof.
  apply (gather_positions_compose hidden_0_23 positions_02_13 positions_10_01
           2 4 3 2 2).
  - reflexivity.
  - reflexivity.
  - reflexivity.
  - reflexivity.
  - simpl. lia.
  - simpl. lia.
  - intros b m Hb Hm.
    destruct b as [|[|b]]; [| |lia];
      (destruct m as [|[|m]]; [| |lia]); vm_compute; split; congruence.
  - intros b m Hb Hm.
    destruct b as [|[|b]]; [| |lia];
      (destruct m as [|[|m]]; [| |lia]); vm_compute; split; congruence.
Defined.

(** *** The device mesh of the SPMD layer *)

(** [[4] + [1] * (len(x.shape) - 1)]; a list repeated a negative number of
    times is empty. *)
Definition input_mesh_shape (rank : nat) : list nat := 4 :: repeat 1 (rank - 1).

(** [np.arange(n)] *)
Definition arange (n : nat) : Tensor Z := mkTensor [n] (map Z.of_nat (seq 0 n)).

(** [np.arange(4).reshape(input_mesh_shape)], the tile assignment handed to
    the sharding annotation. *)
Definition device_mesh (rank : nat) : option (Tensor Z) :=
  reshape (arange 4) (map Z.of_nat (input_mesh_shape rank)).

Lemma numel_repeat_one (n : nat) : numel (repeat 1 n) = 1.
Proof.
  induction n as [|n IH]; [reflexivity|].
  change (1 * numel (repeat 1 n) = 1). lia.
Qed.

(** X5. Whatever the rank of the tensor, the mesh of the SPMD layer holds the
    four devices 0..3 along its first axis and has one axis per dimension of
    the tensor (rank >= 1), so that the reshape of the device list never
    fails and only the leading dimension is split. *)
Theorem device_mesh_four_way (rank : nat) :
  device_mesh rank = Some (mkTensor (4 :: repeat 1 (rank - 1)) [0; 1; 2; 3]%Z)
  /\ (1 <= rank -> length (input_mesh_shape rank) = rank).
Proof.
  split.
  - unfold device_mesh, reshape. cbn [data arange length map seq].
    rewrite resolve_dims_explicit; [reflexivity|].
    unfold input_mesh_shape. change (numel (4 :: repeat 1 (rank - 1)))
      with (4 * numel (repeat 1 (rank - 1))).
    rewrite numel_repeat_one. reflexivity.
  - intros Hr. unfold input_mesh_shape. simpl. rewrite repeat_length. lia.
Qed.

End Gather.

(** ** Part II: the LARS optimizer *)

Module LARS.

Open Scope R_scope.

(** *** Values of the host language and of the framework *)

Inductive dtype : Type := float16 | bfloat16 | float32 | float64.

(** What a caller may pass for a numeric keyword argument. *)
Inductive pyval : Type :=
| PyNone
| PyInt (z : Z)
| PyFloat (r : R).

(** Python truthiness: [None], [0] and [0.0] are falsy. *)
Definition truthy (v : pyval) : bool :=
  match v with
  | PyNone => false
  | PyInt z => negb (z =? 0)%Z
  | PyFloat r => if Req_EM_T r 0 then false else true
  end.

(** [a or b] *)
Definition py_or (a b : pyval) : pyval := if truthy a then a else b.

(** [ops.convert_to_tensor(v, dtype)] for a floating dtype, on the idealised
    reals: the value itself. The rounding to the dtype is [convert_float_to]. *)
Definition convert_to_tensor (v : pyval) : option R :=
  match v with
  | PyNone => None
  | PyInt z => Some (IZR z)
  | PyFloat r => Some r
  end.

Inductive error : Type :=
| ValueError (msg : string)
| NotImplementedError (msg : string).

(** A dense tensor of weights or gradients, flattened. *)
Definition tensor : Type := list R.

Record variable : Type := mkVariable {
  var_name : string;
  var_value : tensor
}.

Fixpoint map2 {X Y W : Type} (f : X -> Y -> W) (xs : list X) (ys : list Y) : list W :=
  match xs, ys with
  | x :: xs', y :: ys' => f x y :: map2 f xs' ys'
  | _, _ => []
  end.

Definition tscale (k : R) (t : tensor) : tensor := map (fun x => k * x) t.
Definition tadd (a b : tensor) : tensor := map2 Rplus a b.

(** [linalg_ops.norm(t, ord=2)]: the Euclidean norm of all the entries. *)
Definition norm2 (t : tensor) : R :=
  sqrt (fold_right (fun x acc => x * x + acc) 0 t).

(** *** The optimizer object *)

Record optimizer : Type := mkOptimizer {
  name : string;
  eeta : R;
  weight_decay : R;
  learning_rate : R;
  decay : R;
  momentum : R;
  epsilon : pyval;
  exclude_from_weight_decay : option (list string);
  exclude_from_layer_adaptation : option (list string);
  use_nesterov : bool;
  m_dtype : option dtype;
  opt_dtypes : list dtype
}.

(** The keyword arguments of the constructor, [kwargs] reduced to the two
    entries the class reads ([lr], [decay]). *)
Record init_args : Type := mkInitArgs {
  arg_learning_rate : R;
  arg_momentum : R;
  arg_weight_decay : R;
  arg_eeta : R;
  arg_epsilon : pyval;
  arg_name : string;
  arg_exclude_from_weight_decay : option (list string);
  arg_exclude_from_layer_adaptation : option (list string);
  arg_m_dtype : option dtype;
  arg_optimizer_compute_precisions : list dtype;
  arg_use_nesterov : bool;
  kwarg_lr : option R;
  kwarg_decay : option R
}.

(** The defaults of the signature of [__init__]. *)
Definition default_args : init_args := {|
  arg_learning_rate := 1 / 1000;
  arg_momentum := 9 / 10;
  arg_weight_decay := 1 / 10000;
  arg_eeta := 1 / 1000;
  arg_epsilon := PyFloat 0;
  arg_name := "LARSOptimizer"%string;
  arg_exclude_from_weight_decay := None;
  arg_exclude_from_layer_adaptation := None;
  arg_m_dtype := None;
  arg_optimizer_compute_precisions := [float32; float32];
  arg_use_nesterov := false;
  kwarg_lr := None;
  kwarg_decay := None
|}.

Definition precision_message : string :=
  "Must provide a list of two elements for the optimizer compute precision. The final stage of the weight update can be done in a different precision to the initial stage."%string.

(** The coefficients of one step, as [_prepare_local] stores them. *)
Record coefficients : Type := mkCoefficients {
  lr_t : R;
  c_eeta : R;
  c_weight_decay : R;
  c_epsilon : R;
  c_momentum : R
}.

(** The variable name of a tensor name: [re.match] against the pattern that
    takes any prefix, a colon and digits up to the end.
    The last colon must be followed by one digit or more up to the end of the
    string, or up to a final newline, and no newline may stand before it. *)
Definition is_digit (c : ascii) : bool :=
  ((48 <=? nat_of_ascii c) && (nat_of_ascii c <=? 57))%nat.

Definition newline : ascii := ascii_of_nat 10.
Definition colon : ascii := ascii_of_nat 58.

Fixpoint span_digits (l : list ascii) : list ascii * list ascii :=
  match l with
  | c :: rest =>
      if is_digit c
      then let '(ds, tl) := span_digits rest in (c :: ds, tl)
      else ([], l)
  | [] => ([], [])
  end.

Definition get_variable_name (param_name : string) : string :=
  let r := rev (list_ascii_of_string param_name) in
  let body := match r with
              | c :: rest => if Ascii.eqb c newline then rest else r
              | [] => r
              end in
  match span_digits body with
  | (_ :: _, c :: prefix) =>
      if Ascii.eqb c colon && negb (existsb (Ascii.eqb newline) prefix)
      then string_of_list_ascii (rev prefix)
      else param_name
  | _ => param_name
  end.

Section WithFramework.

(** [tf.keras.backend.epsilon()], the fuzz factor of the framework. *)
Variable backend_epsilon : R.

(** [re.search(pattern, s) is not None] *)
Variable re_search : string -> string -> bool.

(** The attributes that [__init__] sets, in the order of its body. *)
Definition assign_fields (a : init_args) : optimizer := {|
  name := arg_name a;
  eeta := arg_eeta a;
  weight_decay := arg_weight_decay a;
  learning_rate := match kwarg_lr a with
                   | Some lr => lr
                   | None => arg_learning_rate a
                   end;
  decay := match kwarg_decay a with Some d => d | None => 0 end;
  momentum := arg_momentum a;
  epsilon := py_or (arg_epsilon a) (PyFloat backend_epsilon);
  exclude_from_weight_decay := arg_exclude_from_weight_decay a;
  exclude_from_layer_adaptation := arg_exclude_from_layer_adaptation a;
  use_nesterov := arg_use_nesterov a;
  m_dtype := arg_m_dtype a;
  opt_dtypes := arg_optimizer_compute_precisions a
|}.

(** [LARSIpuOptimizer.__init__] *)
Definition init (a : init_args) : error + optimizer :=
  let self := assign_fields a in
  if (length (opt_dtypes self) =? 2)%nat
  then inr self
  else inl (ValueError precision_message).

(** The learning rate of the step, as the base class prepares it: the time
    inverse decay is applied when [decay] is positive. *)
Definition decayed_lr (self : optimizer) (iterations : nat) : R :=
  if Rlt_dec 0 (decay self)
  then learning_rate self / (1 + decay self * INR iterations)
  else learning_rate self.

(** [_prepare_local] *)
Definition prepare_local (self : optimizer) (iterations : nat) : option coefficients :=
  match convert_to_tensor (epsilon self) with
  | Some eps =>
      Some {| lr_t := decayed_lr self iterations;
              c_eeta := eeta self;
              c_weight_decay := weight_decay self;
              c_epsilon := eps;
              c_momentum := momentum self |}
  | None => None
  end.

(** [update_coefficients]: the cached coefficients of the step when the caller
    supplies them, the fallback state otherwise. *)
Definition update_coefficients (self : optimizer) (apply_state : option coefficients)
           (iterations : nat) : option coefficients :=
  match apply_state with
  | Some c => Some c
  | None => prepare_local self iterations
  end.

Fixpoint no_pattern_matches (patterns : list string) (param_name : string) : bool :=
  match patterns with
  | [] => true
  | r :: rest =>
      if re_search r param_name then false else no_pattern_matches rest param_name
  end.

(** [_do_use_weight_decay] *)
Definition do_use_weight_decay (self : optimizer) (param_name : string) : bool :=
  match exclude_from_weight_decay self with
  | Some (r :: rest) => no_pattern_matches (r :: rest) param_name
  | _ => true
  end.

(** [_do_layer_adaptation] *)
Definition do_layer_adaptation (self : optimizer) (param_name : string) : bool :=
  match exclude_from_layer_adaptation self with
  | Some (r :: rest) => no_pattern_matches (r :: rest) param_name
  | _ => true
  end.

(** The nested [array_ops.where] of [compute_trust_ratio]. *)
Definition trust_ratio_where (w_norm g_norm eeta_t weight_decay_t epsilon_t : R) : R :=
  if Rgt_dec w_norm 0
  then if Rgt_dec g_norm 0
       then eeta_t * w_norm / (g_norm + weight_decay_t * w_norm + epsilon_t)
       else 1
  else 1.

(** [compute_trust_ratio]: the trust ratio and the gradient to pass on.
    The gradient and the variable have the same shape. *)
Definition compute_trust_ratio (self : optimizer) (grad : tensor) (var : variable)
           (eeta_t epsilon_t weight_decay_t : R) : R * tensor :=
  let name := get_variable_name (var_name var) in
  if do_layer_adaptation self name then
    let w_norm := norm2 (var_value var) in
    let g_norm := norm2 grad in
    let '(grad', weight_decay') :=
      if do_use_weight_decay self name
      then (tadd grad (tscale weight_decay_t (var_value var)), weight_decay_t)
      else (grad, 0) in
    (trust_ratio_where w_norm g_norm eeta_t weight_decay' epsilon_t, grad')
  else (1, grad).

(** The fused momentum update of the framework
    ([training_ops.resource_apply_momentum]): the accumulator becomes
    [accum * momentum + grad]; the variable loses [lr * accum], or
    [grad * lr + accum * momentum * lr] with Nesterov momentum. *)
Definition resource_apply_momentum (var accum : tensor) (lr : R) (grad : tensor)
           (momentum_t : R) (nesterov : bool) : tensor * tensor :=
  let accum' := map2 (fun a g => a * momentum_t + g) accum grad in
  let var' :=
    if nesterov
    then map2 (fun v d => v - d) var
              (map2 (fun g a => g * lr + a * momentum_t * lr) grad accum')
    else map2 (fun v a => v - lr * a) var accum' in
  (var', accum').

(** The scaled learning rate of [_resource_apply_dense]. *)
Definition scaled_lr (self : optimizer) (grad : tensor) (var : variable)
           (c : coefficients) : R :=
  lr_t c * fst (compute_trust_ratio self grad var
                  (c_eeta c) (c_epsilon c) (c_weight_decay c)).

(** [_resource_apply_dense]: the new value of the variable and of its
    momentum accumulator. *)
Definition resource_apply_dense (self : optimizer) (grad : tensor) (var : variable)
           (momentum_var : tensor) (apply_state : option coefficients)
           (iterations : nat) : option (tensor * tensor) :=
  match update_coefficients self apply_state iterations with
  | Some c =>
      let '(trust_ratio, grad') :=
        compute_trust_ratio self grad var (c_eeta c) (c_epsilon c) (c_weight_decay c) in
      let scaled := lr_t c * trust_ratio in
      Some (resource_apply_momentum (var_value var) momentum_var 1
              (tscale scaled grad') (c_momentum c) (use_nesterov self))
  | None => None
  end.

(** *** Gradients and the two apply paths *)

Inductive gradient : Type :=
| DenseGrad (g : tensor)
| SparseGrad (values : tensor) (indices : list Z).

Definition sparse_message : string := "Must be implemented in subclasses."%string.

(** Modelled from the spec: the sparse-gradient apply method.
    [LARSIpuOptimizer] defines no [_resource_apply_sparse] (its docstring:
    the update for sparse tensors is not implemented), so the call resolves to
    the optimizer base class of the framework, whose code is not part of the
    sources; by the specification the path fails with NotImplemented and
    applies no update. *)
Definition resource_apply_sparse (self : optimizer) (values : tensor)
           (var : variable) (indices : list Z) (momentum_var : tensor)
  : error + tensor * tensor :=
  inl (NotImplementedError sparse_message).

(** One gradient applied to one variable: the framework calls the dense
    method for a dense gradient and the sparse method for indexed slices. *)
Definition apply_gradient (self : optimizer) (grad : gradient) (var : variable)
           (momentum_var : tensor) (apply_state : option coefficients)
           (iterations : nat) : error + tensor * tensor :=
  match grad with
  | DenseGrad g =>
      match resource_apply_dense self g var momentum_var apply_state iterations with
      | Some r => inr r
      | None => inl (ValueError "None values not supported."%string)
      end
  | SparseGrad values indices =>
      resource_apply_sparse self values var indices momentum_var
  end.

(** *** Configuration export and import *)

Inductive cfg_value : Type :=
| CfgString (s : string)
| CfgReal (r : R)
| CfgPy (v : pyval)
| CfgDtype (d : option dtype).

(** A Python dict with string keys, in insertion order. *)
Definition config : Type := list (string * cfg_value).

Fixpoint dict_set (k : string) (v : cfg_value) (d : config) : config :=
  match d with
  | [] => [(k, v)]
  | (k', v') :: rest =>
      if String.eqb k k' then (k, v) :: rest else (k', v') :: dict_set k v rest
  end.

Definition dict_update (d upd : config) : config :=
  fold_left (fun acc kv => dict_set (fst kv) (snd kv) acc) upd d.

Fixpoint dict_get (k : string) (d : config) : option cfg_value :=
  match d with
  | [] => None
  | (k', v) :: rest => if String.eqb k k' then Some v else dict_get k rest
  end.

(** [get_config]; the base class contributes the name. *)
Definition get_config (self : optimizer) : config :=
  dict_update [("name"%string, CfgString (name self))]
    [ ("learning_rate"%string, CfgReal (learning_rate self));
      ("weight_decay"%string, CfgReal (weight_decay self));
      ("decay"%string, CfgReal (decay self));
      ("momentum"%string, CfgReal (momentum self));
      ("eeta"%string, CfgReal (eeta self));
      ("epsilon"%string, CfgPy (epsilon self));
      ("m_dtype"%string, CfgDtype (m_dtype self)) ].

Definition get_real (k : string) (cfg : config) (default : R) : R :=
  match dict_get k cfg with Some (CfgReal r) => r | _ => default end.

(** The keyword arguments a configuration turns into: every key present is
    passed, every other argument keeps the default of the signature. *)
Definition args_of_config (cfg : config) : init_args := {|
  arg_learning_rate := get_real "learning_rate" cfg (arg_learning_rate default_args);
  arg_momentum := get_real "momentum" cfg (arg_momentum default_args);
  arg_weight_decay := get_real "weight_decay" cfg (arg_weight_decay default_args);
  arg_eeta := get_real "eeta" cfg (arg_eeta default_args);
  arg_epsilon := match dict_get "epsilon" cfg with
                 | Some (CfgPy v) => v
                 | _ => arg_epsilon default_args
                 end;
  arg_name := match dict_get "name" cfg with
              | Some (CfgString s) => s
              | _ => arg_name default_args
              end;
  arg_exclude_from_weight_decay :=
    arg_exclude_from_weight_decay default_args;
  arg_exclude_from_layer_adaptation :=
    arg_exclude_from_layer_adaptation default_args;
  arg_m_dtype := match dict_get "m_dtype" cfg with
                 | Some (CfgDtype d) => d
                 | _ => arg_m_dtype default_args
                 end;
  arg_optimizer_compute_precisions :=
    arg_optimizer_compute_precisions default_args;
  arg_use_nesterov := arg_use_nesterov default_args;
  kwarg_lr := None;
  kwarg_decay := match dict_get "decay" cfg with
                 | Some (CfgReal r) => Some r
                 | _ => None
                 end
|}.

(** Modelled from the spec: the configuration import, the counterpart of
    [get_config] that the class inherits from the framework: the optimizer
    is constructed again with the exported entries as keyword arguments. *)
Definition from_config (cfg : config) : error + optimizer :=
  init (args_of_config cfg).

End WithFramework.

(** The default fuzz factor of the framework, 1e-7. *)
Definition default_backend_epsilon : R := 1 / 10000000.

(** [re.search] for a pattern without metacharacters: substring search. *)
Definition literal_search (pattern s : string) : bool :=
  match String.index 0 pattern s with
  | Some _ => true
  | None => false
  end.

Example get_variable_name_kernel :
  get_variable_name "dense/kernel:0"%string = "dense/kernel"%string.
Proof. reflexivity. Qed.

Example get_variable_name_no_index :
  get_variable_name "dense/kernel"%string = "dense/kernel"%string.
Proof. reflexivity. Qed.

Example get_variable_name_last_colon :
  get_variable_name "a:1:22"%string = "a:1"%string.
Proof. reflexivity. Qed.

Example get_variable_name_not_digits :
  get_variable_name "a:1:b"%string = "a:1:b"%string.
Proof. reflexivity. Qed.

Example literal_search_bias :
  literal_search "bias" "dense/bias" = true
  /\ literal_search "bias" "dense/kernel" = false.
Proof. split; reflexivity. Qed.

(** Constructor arguments: the ones the scenarios vary, the rest default. *)
Definition make_args (lr mom wd eta : R) (eps : pyval)
           (no_decay no_adapt : option (list string)) (nesterov : bool) : init_args := {|
  arg_learning_rate := lr;
  arg_momentum := mom;
  arg_weight_decay := wd;
  arg_eeta := eta;
  arg_epsilon := eps;
  arg_name := arg_name default_args;
  arg_exclude_from_weight_decay := no_decay;
  arg_exclude_from_layer_adaptation := no_adapt;
  arg_m_dtype := arg_m_dtype default_args;
  arg_optimizer_compute_precisions := arg_optimizer_compute_precisions default_args;
  arg_use_nesterov := nesterov;
  kwarg_lr := None;
  kwarg_decay := None
|}.

(** *** Auxiliary facts *)

Lemma norm2_singleton (x : R) : norm2 [x] = Rabs x.
Proof.
  unfold norm2. simpl. rewrite Rplus_0_r. apply sqrt_Rsqr_abs.
Qed.

Lemma norm2_singleton_pos (x : R) : 0 <= x -> norm2 [x] = x.
Proof.
  intros Hx. rewrite norm2_singleton. apply Rabs_pos_eq. exact Hx.
Qed.

Lemma trust_ratio_where_both (w g eta wd eps : R) :
  0 < w -> 0 < g -> trust_ratio_where w g eta wd eps = eta * w / (g + wd * w + eps).
Proof.
  intros Hw Hg. unfold trust_ratio_where.
  destruct (Rgt_dec w 0); [|lra].
  destruct (Rgt_dec g 0); [reflexivity|lra].
Qed.

Lemma trust_ratio_where_no_weight (w g eta wd eps : R) :
  w <= 0 -> trust_ratio_where w g eta wd eps = 1.
Proof.
  intros Hw. unfold trust_ratio_where.
  destruct (Rgt_dec w 0); [lra|reflexivity].
Qed.

Lemma trust_ratio_where_no_gradient (w g eta wd eps : R) :
  g <= 0 -> trust_ratio_where w g eta wd eps = 1.
Proof.
  intros Hg. unfold trust_ratio_where.
  destruct (Rgt_dec w 0); [|reflexivity].
  destruct (Rgt_dec g 0); [lra|reflexivity].
Qed.

Lemma ratio_increasing (eta wd eps g w1 w2 : R) :
  0 < eta -> 0 <= wd -> 0 <= eps -> 0 < g -> 0 < w1 < w2 ->
  eta * w1 / (g + wd * w1 + eps) < eta * w2 / (g + wd * w2 + eps).
Proof.
  intros Heta Hwd Heps Hg [Hw1 Hw12].
  assert (Hd1 : 0 < g + wd * w1 + eps) by nra.
  assert (Hd2 : 0 < g + wd * w2 + eps) by nra.
  apply Rlt_0_minus.
  replace (eta * w2 / (g + wd * w2 + eps) - eta * w1 / (g + wd * w1 + eps))
    with (eta * (g + eps) * (w2 - w1)
          / ((g + wd * w2 + eps) * (g + wd * w1 + eps)))
    by (field; lra).
  apply Rdiv_lt_0_compat.
  - repeat apply Rmult_lt_0_compat; lra.
  - apply Rmult_lt_0_compat; assumption.
Qed.

Section Facts.

Variable backend_epsilon : R.
Variable re_search : string -> string -> bool.

Lemma no_pattern_matches_hit (patterns : list string) (s r : string) :
  In r patterns -> re_search r s = true ->
  no_pattern_matches re_search patterns s = false.
Proof.
  intros Hin Hr. induction patterns as [|p rest IH]; simpl in *; [contradiction|].
  destruct (re_search p s) eqn:Hp; [reflexivity|].
  destruct Hin as [->|Hin]; [congruence|exact (IH Hin)].
Qed.

Lemma compute_trust_ratio_decayed (self : optimizer) (grad : tensor) (var : variable)
      (eta eps wd : R) :
  do_layer_adaptation re_search self (get_variable_name (var_name var)) = true ->
  do_use_weight_decay re_search self (get_variable_name (var_name var)) = true ->
  compute_trust_ratio re_search self grad var eta eps wd
  = (trust_ratio_where (norm2 (var_value var)) (norm2 grad) eta wd eps,
     tadd grad (tscale wd (var_value var))).
Proof.
  intros Hla Hwd. unfold compute_trust_ratio. rewrite Hla, Hwd. reflexivity.
Qed.

Lemma compute_trust_ratio_undecayed (self : optimizer) (grad : tensor) (var : variable)
      (eta eps wd : R) :
  do_layer_adaptation re_search self (get_variable_name (var_name var)) = true ->
  do_use_weight_decay re_search self (get_variable_name (var_name var)) = false ->
  compute_trust_ratio re_search self grad var eta eps wd
  = (trust_ratio_where (norm2 (var_value var)) (norm2 grad) eta 0 eps, grad).
Proof.
  intros Hla Hwd. unfold compute_trust_ratio. rewrite Hla, Hwd. reflexivity.
Qed.

(** The trust ratio of an adapted variable, with the weight decay rate that
    enters the denominator. *)
Lemma compute_trust_ratio_adapted (self : optimizer) (grad : tensor) (var : variable)
      (eta eps wd : R) :
  do_layer_adaptation re_search self (get_variable_name (var_name var)) = true ->
  fst (compute_trust_ratio re_search self grad var eta eps wd)
  = trust_ratio_where (norm2 (var_value var)) (norm2 grad) eta
      (if do_use_weight_decay re_search self (get_variable_name (var_name var))
       then wd else 0) eps.
Proof.
  intros Hla.
  destruct (do_use_weight_decay re_search self (get_variable_name (var_name var)))
    eqn:Hwd.
  - rewrite compute_trust_ratio_decayed by assumption. reflexivity.
  - rewrite compute_trust_ratio_undecayed by assumption. reflexivity.
Qed.

Lemma init_ok (a : init_args) (self : optimizer) :
  init backend_epsilon a = inr self ->
  length (arg_optimizer_compute_precisions a) = 2%nat
  /\ self = assign_fields backend_epsilon a.
Proof.
  unfold init. cbn [opt_dtypes assign_fields].
  destruct (Nat.eqb_spec (length (arg_optimizer_compute_precisions a)) 2);
    intros Heq; [|discriminate].
  split; [assumption|]. injection Heq as <-. reflexivity.
Qed.

Lemma init_two_precisions (a : init_args) :
  length (arg_optimizer_compute_precisions a) = 2%nat ->
  init backend_epsilon a = inr (assign_fields backend_epsilon a).
Proof.
  intros Hlen. unfold init. cbn [opt_dtypes assign_fields].
  rewrite Hlen. reflexivity.
Qed.

End Facts.

(** *** The trust ratio *)

Section TrustRatio.

Variable re_search : string -> string -> bool.

(** C2. In [compute_trust_ratio], for a variable not excluded from layer
    adaptation: when the norm of the variable is 0 the trust ratio is 1
    whatever the gradient; when the norm of the variable is positive and the
    norm of the gradient is 0 the trust ratio is 1; when both are positive
    the trust ratio is eeta * w_norm / (g_norm + weight_decay * w_norm +
    epsilon), with weight_decay as the function holds it at that point: the
    rate it was given for a variable that uses weight decay, 0 for a variable
    excluded from weight decay. *)
Theorem trust_ratio_cases (self : optimizer) (grad : tensor) (var : variable)
        (eta eps wd : R) :
  do_layer_adaptation re_search self (get_variable_name (var_name var)) = true ->
  let w_norm := norm2 (var_value var) in
  let g_norm := norm2 grad in
  let ratio := fst (compute_trust_ratio re_search self grad var eta eps wd) in
  let wd_used :=
    if do_use_weight_decay re_search self (get_variable_name (var_name var))
    then wd else 0 in
  (w_norm = 0 -> ratio = 1)
  /\ (0 < w_norm -> g_norm = 0 -> ratio = 1)
  /\ (0 < w_norm -> 0 < g_norm ->
      ratio = eta * w_norm / (g_norm + wd_used * w_norm + eps)).
Proof.
  intros Hla w_norm g_norm ratio wd_used.
  subst ratio. rewrite compute_trust_ratio_adapted by exact Hla.
  fold w_norm g_norm wd_used.
  split; [|split].
  - intros Hw. apply trust_ratio_where_no_weight. lra.
  - intros _ Hg. apply trust_ratio_where_no_gradient. lra.
  - intros Hw Hg. apply trust_ratio_where_both; assumption.
Qed.

(** C5. A variable whose base name matches a pattern of
    [exclude_from_weight_decay], and that is not excluded from layer
    adaptation, keeps its raw gradient: [compute_trust_ratio] returns the
    gradient it was given, the trust ratio is computed from the norm of that
    gradient with 0 for the weight decay rate, and the momentum update of the
    dense apply step receives the raw gradient times the scaled learning
    rate. *)
Theorem excluded_variable_keeps_gradient (self : optimizer) (grad : tensor)
        (var : variable) (eta eps wd : R) (patterns : list string) (r : string) :
  exclude_from_weight_decay self = Some patterns ->
  In r patterns ->
  re_search r (get_variable_name (var_name var)) = true ->
  do_layer_adaptation re_search self (get_variable_name (var_name var)) = true ->
  compute_trust_ratio re_search self grad var eta eps wd
  = (trust_ratio_where (norm2 (var_value var)) (norm2 grad) eta 0 eps, grad)
  /\ forall momentum_var apply_state iterations c,
       update_coefficients self apply_state iterations = Some c ->
       resource_apply_dense re_search self grad var momentum_var apply_state iterations
       = Some (resource_apply_momentum (var_value var) momentum_var 1
                 (tscale (lr_t c * trust_ratio_where (norm2 (var_value var))
                                     (norm2 grad) (c_eeta c) 0 (c_epsilon c))
                         grad)
                 (c_momentum c) (use_nesterov self)).
Proof.
  intros Hex Hin Hr Hla.
  assert (Hwd : do_use_weight_decay re_search self
                  (get_variable_name (var_name var)) = false).
  { unfold do_use_weight_decay. rewrite Hex.
    destruct patterns as [|p rest]; [contradiction|].
    apply (no_pattern_matches_hit re_search (p :: rest) _ r); assumption. }
  split.
  - apply compute_trust_ratio_undecayed; assumption.
  - intros momentum_var apply_state iterations c Hc.
    unfold resource_apply_dense. rewrite Hc.
    rewrite compute_trust_ratio_undecayed by assumption. reflexivity.
Qed.

(** C7 (amended). In exact arithmetic, with eeta > 0, a weight decay rate
    >= 0 and epsilon >= 0 held fixed, and equal positive gradient norms, the
    trust ratio formula of a variable not excluded from layer adaptation is
    strictly increasing in the norm of the variable, over positive norms.
    (The ratio the code computes is the formula rounded in the compute
    precision, and need not increase: [trust_ratio_fp_not_monotone].) *)
Theorem trust_ratio_increasing (self : optimizer) (g1 g2 : tensor)
        (v1 v2 : variable) (eta eps wd : R) :
  0 < eta -> 0 <= wd -> 0 <= eps ->
  var_name v1 = var_name v2 ->
  do_layer_adaptation re_search self (get_variable_name (var_name v1)) = true ->
  norm2 g1 = norm2 g2 -> 0 < norm2 g1 ->
  0 < norm2 (var_value v1) < norm2 (var_value v2) ->
  fst (compute_trust_ratio re_search self g1 v1 eta eps wd)
  < fst (compute_trust_ratio re_search self g2 v2 eta eps wd).
Proof.
  intros Heta Hwd Heps Hname Hla Hg Hg1 [Hw1 Hw12].
  rewrite !compute_trust_ratio_adapted by (rewrite <- ?Hname; exact Hla).
  rewrite <- Hname, <- Hg.
  rewrite !trust_ratio_where_both by lra.
  apply ratio_increasing; try assumption; try lra.
  destruct (do_use_weight_decay re_search self (get_variable_name (var_name v1)));
    lra.
Qed.

End TrustRatio.

(** Optimizers and variables of the scenarios. *)
Definition bias_excluded_args : init_args :=
  make_args (1 / 10) 0 1 1 (PyFloat 1) (Some ["bias"%string]) None false.

Definition zero_eeta_args : init_args :=
  make_args (1 / 10) 0 0 0 (PyFloat 1) None None false.

Definition bias_variable : variable := mkVariable "dense/bias:0" [1].

Lemma trust_ratio_cases_witness :
  let self := assign_fields default_backend_epsilon bias_excluded_args in
  (norm2 [1] = 0 ->
   fst (compute_trust_ratio literal_search self [1] bias_variable 1 1 1) = 1)
  /\ (0 < norm2 [1] -> norm2 [1] = 0 ->
      fst (compute_trust_ratio literal_search self [1] bias_variable 1 1 1) = 1)
  /\ (0 < norm2 [1] -> 0 < norm2 [1] ->
      fst (compute_trust_ratio literal_search self [1] bias_variable 1 1 1)
      = 1 * norm2 [1] / (norm2 [1] + 0 * norm2 [1] + 1)).
Proof.
  exact (trust_ratio_cases literal_search
           (assign_fields default_backend_epsilon bias_excluded_args)
           [1] bias_variable 1 1 1 eq_refl).
Defined.

Lemma excluded_variable_keeps_gradient_witness :
  let self := assign_fields default_backend_epsilon bias_excluded_args in
  compute_trust_ratio literal_search self [1] bias_variable 1 1 1
  = (trust_ratio_where (norm2 [1]) (norm2 [1]) 1 0 1, [1]).
Proof.
  exact (proj1 (excluded_variable_keeps_gradient literal_search
                  (assign_fields default_backend_epsilon bias_excluded_args)
                  [1] bias_variable 1 1 1 ["bias"%string] "bias"%string
                  eq_refl (or_introl eq_refl) eq_refl eq_refl)).
Defined.

Lemma trust_ratio_increasing_witness :
  fst (compute_trust_ratio literal_search
         (assign_fields default_backend_epsilon bias_excluded_args)
         [1] (mkVariable "w:0" [1]) 1 1 1)
  < fst (compute_trust_ratio literal_search
           (assign_fields default_backend_epsilon bias_excluded_args)
           [1] (mkVariable "w:0" [2]) 1 1 1).
Proof.
  apply (trust_ratio_increasing literal_search
           (assign_fields default_backend_epsilon bias_excluded_args)
           [1] [1] (mkVariable "w:0" [1]) (mkVariable "w:0" [2]) 1 1 1).
  - lra.
  - lra.
  - lra.
  - reflexivity.
  - reflexivity.
  - reflexivity.
  - rewrite norm2_singleton_pos; lra.
  - cbn [var_value]. rewrite !norm2_singleton_pos; lra.
Defined.

(** With eeta = 0 the trust ratio is 0 at every positive norm: a larger
    variable norm does not give a larger ratio. *)
Lemma trust_ratio_increasing_counterexample :
  let self := assign_fields default_backend_epsilon zero_eeta_args in
  let v1 := mkVariable "w:0" [1] in
  let v2 := mkVariable "w:0" [2] in
  init default_backend_epsilon zero_eeta_args = inr self
  /\ do_layer_adaptation literal_search self
       (get_variable_name (var_name v1)) = true
  /\ 0 < norm2 [1]
  /\ 0 < norm2 (var_value v1) < norm2 (var_value v2)
  /\ ~ (fst (compute_trust_ratio literal_search self [1] v1
               (eeta self) 1 (weight_decay self))
        < fst (compute_trust_ratio literal_search self [1] v2
                 (eeta self) 1 (weight_decay self))).
Proof.
  cbv zeta.
  assert (H1 : norm2 [1] = 1) by (apply norm2_singleton_pos; lra).
  assert (H2 : norm2 [2] = 2) by (apply norm2_singleton_pos; lra).
  split; [reflexivity|]. split; [reflexivity|].
  cbn [var_value]. rewrite H1, H2.
  split; [lra|]. split; [lra|].
  rewrite !compute_trust_ratio_decayed by reflexivity.
  cbn [fst var_value eeta weight_decay assign_fields zero_eeta_args make_args
       arg_eeta arg_weight_decay].
  rewrite H1, H2, !trust_ratio_where_both by lra.
  unfold Rdiv. rewrite !Rmult_0_l. lra.
Qed.

(** *** The end-to-end scenario *)

Definition scenario_args : init_args :=
  make_args (1 / 10) 0 0 1 (PyFloat 0) None None false.

Definition scenario_variable : variable := mkVariable "v:0" [4].

Definition scenario_coefficients (ke : R) : coefficients := {|
  lr_t := 1 / 10;
  c_eeta := 1;
  c_weight_decay := 0;
  c_epsilon := ke;
  c_momentum := 0
|}.

Lemma py_or_zero (k : pyval) : py_or (PyFloat 0) k = k.
Proof.
  unfold py_or, truthy. destruct (Req_EM_T 0 0); [reflexivity|contradiction].
Qed.

Lemma scenario_prepare (ke : R) (n : nat) :
  prepare_local (assign_fields ke scenario_args) n = Some (scenario_coefficients ke).
Proof.
  unfold prepare_local, scenario_coefficients, decayed_lr.
  cbn [epsilon assign_fields scenario_args make_args arg_epsilon decay kwarg_decay
       learning_rate kwarg_lr arg_learning_rate eeta arg_eeta weight_decay
       arg_weight_decay momentum arg_momentum].
  rewrite py_or_zero. cbn [convert_to_tensor].
  destruct (Rlt_dec 0 0); [lra|reflexivity].
Qed.

Lemma scenario_trust_ratio (ke : R) (rs : string -> string -> bool) :
  fst (compute_trust_ratio rs (assign_fields ke scenario_args) [1]
         scenario_variable 1 ke 0)
  = 4 / (1 + ke).
Proof.
  rewrite compute_trust_ratio_decayed by reflexivity.
  cbn [fst var_value scenario_variable].
  rewrite !norm2_singleton_pos by lra.
  rewrite trust_ratio_where_both by lra.
  replace (1 + 0 * 4 + ke) with (1 + ke) by ring.
  unfold Rdiv. ring.
Qed.

Lemma scenario_apply (ke : R) (rs : string -> string -> bool) (a : R) (n : nat) :
  resource_apply_dense rs (assign_fields ke scenario_args) [1] scenario_variable
    [a] None n
  = Some ([4 - 4 / 10 / (1 + ke)], [4 / 10 / (1 + ke)]).
Proof.
  unfold resource_apply_dense, update_coefficients.
  rewrite scenario_prepare.
  cbn [scenario_coefficients c_eeta c_epsilon c_weight_decay lr_t c_momentum].
  rewrite compute_trust_ratio_decayed by reflexivity.
  cbn [var_value scenario_variable use_nesterov assign_fields scenario_args
       make_args arg_use_nesterov].
  rewrite !norm2_singleton_pos by lra.
  rewrite trust_ratio_where_both by lra.
  replace (1 + 0 * 4 + ke) with (1 + ke) by ring.
  unfold resource_apply_momentum, tscale, tadd. cbn [map map2].
  f_equal. f_equal; f_equal; unfold Rdiv; ring.
Qed.

Lemma scenario_scaled_lr (ke : R) (rs : string -> string -> bool) :
  scaled_lr rs (assign_fields ke scenario_args) [1] scenario_variable
    (scenario_coefficients ke)
  = 4 / 10 / (1 + ke).
Proof.
  unfold scaled_lr.
  cbn [scenario_coefficients c_eeta c_epsilon c_weight_decay lr_t].
  rewrite scenario_trust_ratio. unfold Rdiv. ring.
Qed.

Lemma default_backend_epsilon_pos : 0 < default_backend_epsilon.
Proof. unfold default_backend_epsilon. lra. Qed.

Lemma scenario_ratio_not_four (ke : R) : 0 < ke -> 4 / (1 + ke) <> 4.
Proof.
  intros Hke Heq.
  assert (H : 4 / (1 + ke) * (1 + ke) = 4) by (field; lra).
  rewrite Heq in H. lra.
Qed.

(** C3 (amended). For the scalar variable v = 4.0 with gradient 1.0, under
    an optimizer constructed with momentum=0, eeta=1.0, weight_decay=0,
    epsilon=0, learning_rate=0.1 and no exclusion patterns, construction
    stores the fuzz factor e of the framework in place of the zero epsilon,
    and one dense apply step computes the trust ratio 4/(1+e) and the scaled
    learning rate 0.4/(1+e), sets the momentum accumulator to 0.4/(1+e) and
    the variable to 4 - 0.4/(1+e). *)
Theorem scenario_step (ke : R) (rs : string -> string -> bool) (a : R) (n : nat) :
  let self := assign_fields ke scenario_args in
  let c := scenario_coefficients ke in
  init ke scenario_args = inr self
  /\ epsilon self = PyFloat ke
  /\ prepare_local self n = Some c
  /\ fst (compute_trust_ratio rs self [1] scenario_variable
            (c_eeta c) (c_epsilon c) (c_weight_decay c)) = 4 / (1 + ke)
  /\ scaled_lr rs self [1] scenario_variable c = 4 / 10 / (1 + ke)
  /\ resource_apply_dense rs self [1] scenario_variable [a] None n
     = Some ([4 - 4 / 10 / (1 + ke)], [4 / 10 / (1 + ke)]).
Proof.
  cbv zeta. split; [reflexivity|]. split; [apply py_or_zero|].
  split; [apply scenario_prepare|].
  split; [apply scenario_trust_ratio|].
  split; [apply scenario_scaled_lr|apply scenario_apply].
Qed.

(** With the default fuzz factor 1e-7 the trust ratio of the scenario is not
    4, the scaled learning rate is not 0.4, and the step does not leave
    (3.6, 0.4) in the variable and its accumulator. *)
Lemma scenario_step_counterexample :
  let self := assign_fields default_backend_epsilon scenario_args in
  let c := scenario_coefficients default_backend_epsilon in
  init default_backend_epsilon scenario_args = inr self
  /\ prepare_local self 0 = Some c
  /\ fst (compute_trust_ratio literal_search self [1] scenario_variable
            (c_eeta c) (c_epsilon c) (c_weight_decay c)) <> 4
  /\ scaled_lr literal_search self [1] scenario_variable c <> 4 / 10
  /\ resource_apply_dense literal_search self [1] scenario_variable [0] None 0
     <> Some ([36 / 10], [4 / 10]).
Proof.
  cbv zeta. pose proof default_backend_epsilon_pos as Hpos.
  pose proof (scenario_ratio_not_four _ Hpos) as Hne.
  split; [reflexivity|]. split; [apply scenario_prepare|].
  split; [|split].
  - change (fst (compute_trust_ratio literal_search
                   (assign_fields default_backend_epsilon scenario_args) [1]
                   scenario_variable 1 default_backend_epsilon 0) <> 4).
    rewrite scenario_trust_ratio. exact Hne.
  - rewrite scenario_scaled_lr. intros Heq. apply Hne.
    unfold Rdiv in *. lra.
  - rewrite scenario_apply. intros Heq. injection Heq as _ Heq.
    apply Hne. unfold Rdiv in *. lra.
Qed.

(** *** Construction *)






(** **** The conversion to the compute precision, on floating-point numbers *)

(** Precision (bits of the significand, the implicit one included) and
    exponent bound of a dtype. *)
Definition format_of (d : dtype) : Z * Z :=
  match d with
  | float16 => (11, 16)%Z
  | bfloat16 => (8, 128)%Z
  | float32 => (24, 128)%Z
  | float64 => (53, 1024)%Z
  end.

(** [ops.convert_to_tensor(x, dtype)] and [math_ops.cast(x, dtype)] on a
    floating-point number: rounding to the nearest number of the dtype, ties
    to even. *)
Definition convert_float_to (d : dtype) (x : spec_float) : spec_float :=
  match x with
  | S754_finite s m e => binary_round (fst (format_of d)) (snd (format_of d)) s m e
  | _ => x
  end.






(** C9. Construction with a tuple of compute precisions whose length is not
    2 raises the ValueError of the precision check; with a tuple of length 2
    construction returns the optimizer. *)
Theorem init_checks_precisions (ke : R) (a : init_args) :
  (length (arg_optimizer_compute_precisions a) <> 2%nat ->
   init ke a = inl (ValueError precision_message))
  /\ (length (arg_optimizer_compute_precisions a) = 2%nat ->
      exists self, init ke a = inr self).
Proof.
  unfold init. cbn [opt_dtypes assign_fields].
  destruct (Nat.eqb_spec (length (arg_optimizer_compute_precisions a)) 2) as [He|Hne].
  - split; [intros H; contradiction|]. intros _. eexists. reflexivity.
  - split; [reflexivity|]. intros H. contradiction.
Qed.

Definition one_precision_args : init_args := {|
  arg_learning_rate := arg_learning_rate default_args;
  arg_momentum := arg_momentum default_args;
  arg_weight_decay := arg_weight_decay default_args;
  arg_eeta := arg_eeta default_args;
  arg_epsilon := arg_epsilon default_args;
  arg_name := arg_name default_args;
  arg_exclude_from_weight_decay := None;
  arg_exclude_from_layer_adaptation := None;
  arg_m_dtype := None;
  arg_optimizer_compute_precisions := [float32];
  arg_use_nesterov := false;
  kwarg_lr := None;
  kwarg_decay := None
|}.

Lemma init_checks_precisions_witness :
  init default_backend_epsilon one_precision_args = inl (ValueError precision_message)
  /\ exists self, init default_backend_epsilon default_args = inr self.
Proof.
  split.
  - apply (proj1 (init_checks_precisions default_backend_epsilon one_precision_args)).
    simpl. lia.
  - apply (proj2 (init_checks_precisions default_backend_epsilon default_args)).
    reflexivity.
Defined.

(** *** Configuration export *)

Lemma args_of_config_get_config (self : optimizer) :
  args_of_config (get_config self) = {|
    arg_learning_rate := learning_rate self;
    arg_momentum := momentum self;
    arg_weight_decay := weight_decay self;
    arg_eeta := eeta self;
    arg_epsilon := epsilon self;
    arg_name := name self;
    arg_exclude_from_weight_decay := None;
    arg_exclude_from_layer_adaptation := None;
    arg_m_dtype := m_dtype self;
    arg_optimizer_compute_precisions := [float32; float32];
    arg_use_nesterov := false;
    kwarg_lr := None;
    kwarg_decay := Some (decay self)
  |}.
Proof. reflexivity. Qed.

Lemma py_or_idempotent (v k : pyval) : py_or (py_or v k) k = py_or v k.
Proof.
  unfold py_or. destruct (truthy v) eqn:Hv.
  - rewrite Hv. reflexivity.
  - destruct (truthy k); reflexivity.
Qed.

(** What the export does carry: the entries of [get_config] come back as the
    same hyperparameters; the exclusion lists, the Nesterov flag and the
    compute precisions are not exported and come back as the defaults. *)
Lemma from_config_get_config (ke : R) (a : init_args) (self : optimizer) :
  init ke a = inr self ->
  exists restored,
    from_config ke (get_config self) = inr restored
    /\ name restored = name self
    /\ learning_rate restored = learning_rate self
    /\ weight_decay restored = weight_decay self
    /\ decay restored = decay self
    /\ momentum restored = momentum self
    /\ eeta restored = eeta self
    /\ epsilon restored = epsilon self
    /\ m_dtype restored = m_dtype self
    /\ exclude_from_weight_decay restored = None
    /\ exclude_from_layer_adaptation restored = None
    /\ use_nesterov restored = false
    /\ opt_dtypes restored = [float32; float32].
Proof.
  intros Hinit. apply init_ok in Hinit as [_ ->].
  unfold from_config. rewrite args_of_config_get_config.
  rewrite init_two_precisions by reflexivity.
  eexists. split; [reflexivity|].
  cbn. repeat split. apply py_or_idempotent.
Qed.

Definition nesterov_args : init_args :=
  make_args (1 / 10) (1 / 2) 0 1 (PyFloat 1) None None true.

Lemma py_or_one (k : pyval) : py_or (PyFloat 1) k = PyFloat 1.
Proof.
  unfold py_or, truthy. destruct (Req_EM_T 1 0); [lra|reflexivity].
Qed.

(** C10 (the export loses the Nesterov flag). An optimizer constructed with
    use_nesterov=True exports a configuration from which construction gives
    an optimizer with use_nesterov=False: on the variable 4.0 with gradient
    1.0 and a zero accumulator the original step leaves 3.7 in the variable,
    the step of the reconstructed optimizer 3.8. *)
Theorem get_config_loses_nesterov (ke : R) (rs : string -> string -> bool) :
  let self := assign_fields ke nesterov_args in
  let restored := assign_fields ke (args_of_config (get_config self)) in
  init ke nesterov_args = inr self
  /\ from_config ke (get_config self) = inr restored
  /\ use_nesterov self = true
  /\ use_nesterov restored = false
  /\ resource_apply_dense rs self [1] scenario_variable [0] None 0
     = Some ([37 / 10], [2 / 10])
  /\ resource_apply_dense rs restored [1] scenario_variable [0] None 0
     = Some ([38 / 10], [2 / 10]).
Proof.
  cbv zeta.
  split; [reflexivity|]. split; [reflexivity|].
  split; [reflexivity|]. split; [reflexivity|].
  assert (Hd : forall r : R, (if Rlt_dec 0 0 then r else 1 / 10) = 1 / 10)
    by (intros r; destruct (Rlt_dec 0 0); [lra|reflexivity]).
  split.
  - unfold resource_apply_dense, update_coefficients, prepare_local, decayed_lr.
    cbn [epsilon assign_fields nesterov_args make_args arg_epsilon decay
         kwarg_decay learning_rate kwarg_lr arg_learning_rate eeta arg_eeta
         weight_decay arg_weight_decay momentum arg_momentum].
    rewrite py_or_one. cbn [convert_to_tensor]. rewrite Hd.
    cbn [c_eeta c_epsilon c_weight_decay lr_t c_momentum].
    rewrite compute_trust_ratio_decayed by reflexivity.
    cbn [var_value scenario_variable use_nesterov assign_fields nesterov_args
         make_args arg_use_nesterov].
    rewrite !norm2_singleton_pos by lra.
    rewrite trust_ratio_where_both by lra.
    unfold resource_apply_momentum, tscale, tadd. cbn [map map2].
    f_equal. f_equal; f_equal; field.
  - rewrite args_of_config_get_config.
    unfold resource_apply_dense, update_coefficients, prepare_local, decayed_lr.
    cbn [epsilon assign_fields nesterov_args make_args arg_epsilon decay
         kwarg_decay learning_rate kwarg_lr arg_learning_rate eeta arg_eeta
         weight_decay arg_weight_decay momentum arg_momentum].
    rewrite !py_or_one. cbn [convert_to_tensor]. rewrite Hd.
    cbn [c_eeta c_epsilon c_weight_decay lr_t c_momentum].
    rewrite compute_trust_ratio_decayed by reflexivity.
    cbn [var_value scenario_variable use_nesterov assign_fields
         arg_use_nesterov].
    rewrite !norm2_singleton_pos by lra.
    rewrite trust_ratio_where_both by lra.
    unfold resource_apply_momentum, tscale, tadd. cbn [map map2].
    f_equal. f_equal; f_equal; field.
Qed.

(** *** Variable names *)

Lemma span_digits_spec (l : list ascii) :
  l = fst (span_digits l) ++ snd (span_digits l)
  /\ forallb is_digit (fst (span_digits l)) = true.
Proof.
  induction l as [|c rest [IHl IHd]]; simpl; [split; reflexivity|].
  destruct (is_digit c) eqn:Hc; [|split; reflexivity].
  destruct (span_digits rest) as [ds tl]. simpl in *.
  split; [f_equal; exact IHl|]. rewrite Hc. exact IHd.
Qed.

Lemma span_digits_app (ds tl : list ascii) (c : ascii) :
  forallb is_digit ds = true -> is_digit c = false ->
  span_digits (ds ++ c :: tl) = (ds, c :: tl).
Proof.
  intros Hds Hc. induction ds as [|d ds IH]; simpl in *.
  - rewrite Hc. reflexivity.
  - apply andb_true_iff in Hds as [Hd Hds]. rewrite Hd, (IH Hds). reflexivity.
Qed.

Lemma forallb_rev {X : Type} (f : X -> bool) (l : list X) :
  forallb f (rev l) = forallb f l.
Proof.
  induction l as [|x l IH]; simpl; [reflexivity|].
  rewrite forallb_app, IH. simpl. rewrite andb_true_r. apply andb_comm.
Qed.

Lemma existsb_rev {X : Type} (f : X -> bool) (l : list X) :
  existsb f (rev l) = existsb f l.
Proof.
  induction l as [|x l IH]; simpl; [reflexivity|].
  rewrite existsb_app, IH. simpl. rewrite orb_false_r. apply orb_comm.
Qed.

Lemma digit_not_newline (c : ascii) : is_digit c = true -> Ascii.eqb c newline = false.
Proof.
  intros Hc. destruct (Ascii.eqb_spec c newline) as [->|]; [|reflexivity].
  discriminate Hc.
Qed.

(** X6. A tensor name made of a name without newline, a colon and one digit or
    more gives back the name. *)
Theorem get_variable_name_strips_index (prefix index : list ascii) :
  index <> [] ->
  forallb is_digit index = true ->
  existsb (Ascii.eqb newline) prefix = false ->
  get_variable_name (string_of_list_ascii (prefix ++ colon :: index))
  = string_of_list_ascii prefix.
Proof.
  intros Hne Hdigits Hnl. unfold get_variable_name.
  rewrite list_ascii_of_string_of_list_ascii, rev_app_distr. simpl rev.
  rewrite <- app_assoc. simpl app.
  assert (Hrd : forallb is_digit (rev index) = true)
    by (rewrite forallb_rev; exact Hdigits).
  destruct (rev index) as [|d ds] eqn:Hr.
  - apply (f_equal (@rev ascii)) in Hr. rewrite rev_involutive in Hr.
    contradiction.
  - simpl app.
    assert (Hd : is_digit d = true)
      by (simpl in Hrd; apply andb_true_iff in Hrd; tauto).
    cbv beta iota. rewrite (digit_not_newline d Hd).
    change (d :: ds ++ colon :: rev prefix) with ((d :: ds) ++ colon :: rev prefix).
    rewrite span_digits_app by (try exact Hrd; reflexivity).
    rewrite Ascii.eqb_refl, existsb_rev, Hnl. simpl.
    rewrite rev_involutive. reflexivity.
Qed.

Lemma get_variable_name_strips_index_witness :
  get_variable_name
    (string_of_list_ascii
       (list_ascii_of_string "dense/kernel" ++ colon :: list_ascii_of_string "12"))
  = string_of_list_ascii (list_ascii_of_string "dense/kernel").
Proof.
  apply get_variable_name_strips_index.
  - discriminate.
  - reflexivity.
  - reflexivity.
Defined.

(** X7. The variable name is the tensor name itself, or what stands before a
    final colon and digits (with at most one newline after them): nothing
    else is ever removed. *)
Theorem get_variable_name_sound (param_name : string) :
  get_variable_name param_name = param_name
  \/ exists index,
       index <> []
       /\ forallb is_digit index = true
       /\ (list_ascii_of_string param_name
           = list_ascii_of_string (get_variable_name param_name)
             ++ colon :: index
           \/ list_ascii_of_string param_name
              = list_ascii_of_string (get_variable_name param_name)
                ++ colon :: index ++ [newline]).
Proof.
  unfold get_variable_name.
  set (l := list_ascii_of_string param_name).
  assert (Hl : l = rev (rev l)) by (symmetry; apply rev_involutive).
  set (body := match rev l with
               | c :: rest => if Ascii.eqb c newline then rest else rev l
               | [] => rev l
               end).
  assert (Hbody : rev l = body \/ rev l = newline :: body).
  { subst body. destruct (rev l) as [|c rest]; [left; reflexivity|].
    destruct (Ascii.eqb_spec c newline) as [->|]; [right|left]; reflexivity. }
  destruct (span_digits_spec body) as [Hsplit Hdigits].
  destruct (span_digits body) as [ds tl]. simpl in Hsplit, Hdigits.
  destruct ds as [|d ds]; [left; reflexivity|].
  destruct tl as [|c prefix]; [left; reflexivity|].
  destruct (Ascii.eqb_spec c colon) as [->|]; [|left; reflexivity].
  destruct (existsb (Ascii.eqb newline) prefix); [left; reflexivity|].
  simpl. right. exists (rev (d :: ds)).
  split.
  - intros Hnil. apply (f_equal (@rev ascii)) in Hnil.
    rewrite rev_involutive in Hnil. discriminate.
  - split; [rewrite forallb_rev; exact Hdigits|].
    rewrite list_ascii_of_string_of_list_ascii.
    assert (Hrb : rev body = rev prefix ++ colon :: rev (d :: ds)).
    { rewrite Hsplit, rev_app_distr. simpl rev at 1.
      rewrite <- app_assoc. reflexivity. }
    destruct Hbody as [Hb|Hb]; rewrite Hl, Hb.
    + left. exact Hrb.
    + right. simpl rev at 1. rewrite Hrb, <- app_assoc. reflexivity.
Qed.

(** *** Exclusion patterns *)

Section Exclusion.

Variable re_search : string -> string -> bool.

Lemma no_pattern_matches_false_iff (patterns : list string) (s : string) :
  no_pattern_matches re_search patterns s = false
  <-> exists r, In r patterns /\ re_search r s = true.
Proof.
  split.
  - induction patterns as [|p rest IH]; simpl; [discriminate|].
    destruct (re_search p s) eqn:Hp.
    + intros _. exists p. split; [left; reflexivity|exact Hp].
    + intros H. destruct (IH H) as [r [Hin Hr]].
      exists r. split; [right; exact Hin|exact Hr].
  - intros [r [Hin Hr]].
    apply (no_pattern_matches_hit re_search patterns s r); assumption.
Qed.

(** X8. A parameter is left out of weight decay (of layer adaptation) exactly
    when some pattern of the corresponding exclusion list is found in its
    name; with no list, or an empty one, no parameter is left out. *)
Theorem exclusion_iff_some_pattern_found (self : optimizer) (param_name : string) :
  (do_use_weight_decay re_search self param_name = false
   <-> exists patterns r,
         exclude_from_weight_decay self = Some patterns
         /\ In r patterns /\ re_search r param_name = true)
  /\ (do_layer_adaptation re_search self param_name = false
      <-> exists patterns r,
            exclude_from_layer_adaptation self = Some patterns
            /\ In r patterns /\ re_search r param_name = true).
Proof.
  assert (Hgen : forall excl : option (list string),
            match excl with
            | Some (r :: rest) => no_pattern_matches re_search (r :: rest) param_name
            | _ => true
            end = false
            <-> exists patterns r,
                  excl = Some patterns
                  /\ In r patterns /\ re_search r param_name = true).
  { intros [[|p rest]|].
    - split; [discriminate|]. intros [ps [r [Heq [Hin _]]]].
      injection Heq as <-. contradiction.
    - rewrite no_pattern_matches_false_iff. split.
      + intros [r [Hin Hr]]. exists (p :: rest), r. auto.
      + intros [ps [r [Heq [Hin Hr]]]]. injection Heq as <-. exists r. auto.
    - split; [discriminate|]. intros [ps [r [Heq _]]]. discriminate. }
  split; [apply (Hgen (exclude_from_weight_decay self))
         |apply (Hgen (exclude_from_layer_adaptation self))].
Qed.

End Exclusion.

(** *** Norms and the fallback ratio *)

Definition all_zero (t : tensor) : Prop := Forall (fun x => x = 0) t.

Lemma norm2_all_zero (t : tensor) : all_zero t -> norm2 t = 0.
Proof.
  unfold norm2, all_zero. intros Hz.
  replace (fold_right (fun x acc => x * x + acc) 0 t) with 0;
    [apply sqrt_0|].
  induction Hz as [|x t Hx _ IH]; simpl; [reflexivity|].
  rewrite <- IH, Hx. ring.
Qed.

Section Steps.

Variable re_search : string -> string -> bool.

(** X9. For a variable not excluded from layer adaptation the fallback ratio
    1.0 is used whenever every weight is 0 or every entry of the gradient is
    0. *)
Theorem fallback_ratio_on_zero_tensors (self : optimizer) (grad : tensor)
        (var : variable) (eta eps wd : R) :
  do_layer_adaptation re_search self (get_variable_name (var_name var)) = true ->
  all_zero (var_value var) \/ all_zero grad ->
  fst (compute_trust_ratio re_search self grad var eta eps wd) = 1.
Proof.
  intros Hla Hzero.
  rewrite compute_trust_ratio_adapted by exact Hla.
  destruct Hzero as [Hz|Hz]; apply norm2_all_zero in Hz.
  - apply trust_ratio_where_no_weight. lra.
  - apply trust_ratio_where_no_gradient. lra.
Qed.

Lemma tadd_zeros (t : tensor) : tadd (repeat 0 (length t)) t = t.
Proof.
  unfold tadd. induction t as [|x t IH]; simpl; [reflexivity|].
  rewrite IH. f_equal. ring.
Qed.

Lemma all_zero_repeat (n : nat) : all_zero (repeat 0 n).
Proof.
  unfold all_zero. induction n as [|n IH]; simpl; constructor; auto.
Qed.

(** X10. A zero gradient does not stop weight decay: for a variable that is
    adapted and uses weight decay, the ratio is 1 and the gradient passed on
    is the weight decay rate times the variable. *)
Theorem zero_gradient_still_decays (self : optimizer) (var : variable)
        (eta eps wd : R) :
  do_layer_adaptation re_search self (get_variable_name (var_name var)) = true ->
  do_use_weight_decay re_search self (get_variable_name (var_name var)) = true ->
  compute_trust_ratio re_search self (repeat 0 (length (var_value var))) var
    eta eps wd
  = (1, tscale wd (var_value var)).
Proof.
  intros Hla Hwd.
  rewrite compute_trust_ratio_decayed by assumption.
  f_equal.
  - apply trust_ratio_where_no_gradient.
    pose proof (norm2_all_zero _ (all_zero_repeat (length (var_value var)))).
    lra.
  - rewrite <- (tadd_zeros (tscale wd (var_value var))) at 2.
    unfold tscale. rewrite length_map. reflexivity.
Qed.

End Steps.

(** *** The dense step *)

Lemma length_map2 {X Y W : Type} (f : X -> Y -> W) (xs : list X) (ys : list Y) :
  length (map2 f xs ys) = Nat.min (length xs) (length ys).
Proof.
  revert ys. induction xs as [|x xs IH]; intros [|y ys]; simpl; auto.
Qed.

Lemma map2_ext {X Y W : Type} (f g : X -> Y -> W) (xs : list X) (ys : list Y) :
  (forall x y, f x y = g x y) -> map2 f xs ys = map2 g xs ys.
Proof.
  intros Hfg. revert ys. induction xs as [|x xs IH]; intros [|y ys]; simpl; auto.
  rewrite Hfg, IH. reflexivity.
Qed.

Lemma map2_fresh_accumulator (accum step : tensor) :
  length accum = length step ->
  map2 (fun a g => a * 0 + g) accum step = step.
Proof.
  revert step. induction accum as [|a accum IH]; intros [|g step] Hlen;
    simpl in *; try discriminate; [reflexivity|].
  rewrite IH by lia. f_equal. ring.
Qed.

Lemma map2_nesterov_zero (step : tensor) :
  map2 (fun g a => g * 1 + a * 0 * 1) step step = step.
Proof.
  induction step as [|g step IH]; simpl; [reflexivity|].
  rewrite IH. f_equal. ring.
Qed.

Section DenseStep.

Variable re_search : string -> string -> bool.

Lemma length_compute_trust_ratio (self : optimizer) (grad : tensor) (var : variable)
      (eta eps wd : R) :
  length (var_value var) = length grad ->
  length (snd (compute_trust_ratio re_search self grad var eta eps wd))
  = length grad.
Proof.
  intros Hlen. unfold compute_trust_ratio.
  destruct (do_layer_adaptation re_search self _); [|reflexivity].
  destruct (do_use_weight_decay re_search self _); [|reflexivity].
  cbn [snd]. unfold tadd, tscale. rewrite length_map2, length_map. lia.
Qed.

Lemma resource_apply_dense_unfold (self : optimizer) (grad : tensor) (var : variable)
      (momentum_var : tensor) (apply_state : option coefficients) (n : nat)
      (c : coefficients) :
  update_coefficients self apply_state n = Some c ->
  resource_apply_dense re_search self grad var momentum_var apply_state n
  = Some (resource_apply_momentum (var_value var) momentum_var 1
            (tscale (scaled_lr re_search self grad var c)
               (snd (compute_trust_ratio re_search self grad var
                       (c_eeta c) (c_epsilon c) (c_weight_decay c))))
            (c_momentum c) (use_nesterov self)).
Proof.
  intros Hc. unfold resource_apply_dense, scaled_lr. rewrite Hc.
  destruct (compute_trust_ratio re_search self grad var _ _ _). reflexivity.
Qed.

(** X13. With a momentum coefficient of 0 the dense step is
    v <- v - lr * trust_ratio * g, where g is the gradient that
    [compute_trust_ratio] passes on, and the accumulator becomes that update;
    this holds with and without Nesterov momentum. *)
Theorem dense_step_without_momentum (self : optimizer) (grad : tensor)
        (var : variable) (momentum_var : tensor)
        (apply_state : option coefficients) (n : nat) (c : coefficients) :
  update_coefficients self apply_state n = Some c ->
  c_momentum c = 0 ->
  length (var_value var) = length grad ->
  length momentum_var = length grad ->
  let update :=
    tscale (scaled_lr re_search self grad var c)
      (snd (compute_trust_ratio re_search self grad var
              (c_eeta c) (c_epsilon c) (c_weight_decay c))) in
  resource_apply_dense re_search self grad var momentum_var apply_state n
  = Some (map2 Rminus (var_value var) update, update).
Proof.
  intros Hc Hmom Hvar Hacc update.
  rewrite (resource_apply_dense_unfold self grad var momentum_var apply_state n c Hc).
  fold update. unfold resource_apply_momentum. rewrite Hmom.
  assert (Hlen : length momentum_var = length update).
  { subst update. unfold tscale. rewrite length_map, length_compute_trust_ratio; auto. }
  rewrite (map2_fresh_accumulator momentum_var update Hlen).
  destruct (use_nesterov self).
  - rewrite map2_nesterov_zero. reflexivity.
  - replace (map2 (fun v a => v - 1 * a) (var_value var) update)
      with (map2 Rminus (var_value var) update); [reflexivity|].
    apply map2_ext. intros v a. ring.
Qed.

(** X15. A variable excluded from layer adaptation gets plain momentum descent
    at the learning rate of the step: its trust ratio is 1 and no weight decay
    is added to its gradient, whether or not the variable is also excluded
    from weight decay. *)
Theorem unadapted_variable_plain_momentum (self : optimizer) (grad : tensor)
        (var : variable) (momentum_var : tensor)
        (apply_state : option coefficients) (n : nat) (c : coefficients) :
  do_layer_adaptation re_search self (get_variable_name (var_name var)) = false ->
  update_coefficients self apply_state n = Some c ->
  (forall eta eps wd,
     compute_trust_ratio re_search self grad var eta eps wd = (1, grad))
  /\ resource_apply_dense re_search self grad var momentum_var apply_state n
     = Some (resource_apply_momentum (var_value var) momentum_var 1
               (tscale (lr_t c) grad) (c_momentum c) (use_nesterov self)).
Proof.
  intros Hla Hc.
  assert (Hctr : forall eta eps wd,
            compute_trust_ratio re_search self grad var eta eps wd = (1, grad)).
  { intros eta eps wd. unfold compute_trust_ratio. rewrite Hla. reflexivity. }
  split; [exact Hctr|].
  rewrite (resource_apply_dense_unfold self grad var momentum_var apply_state n c Hc).
  unfold scaled_lr. rewrite Hctr. cbn [fst snd].
  do 2 f_equal. unfold tscale. apply map_ext. intros x. ring.
Qed.

End DenseStep.

(** *** The two apply paths *)

(** C6. Applying a sparse gradient fails with NotImplementedError and returns
    no update, whatever the optimizer, the gradient, the variable and the
    accumulator. Only the dense path performs an update: whenever applying a
    gradient returns new values, the gradient is dense and the values are
    those of the momentum update, fed with the gradient that
    [compute_trust_ratio] passes on times the scaled learning rate. *)
Theorem sparse_path_unsupported (rs : string -> string -> bool)
        (self : optimizer) (var : variable) (momentum_var : tensor)
        (apply_state : option coefficients) (n : nat) :
  (forall values indices,
     apply_gradient rs self (SparseGrad values indices) var momentum_var
       apply_state n
     = inl (NotImplementedError sparse_message))
  /\ (forall grad r,
        apply_gradient rs self grad var momentum_var apply_state n = inr r ->
        exists g c,
          grad = DenseGrad g
          /\ update_coefficients self apply_state n = Some c
          /\ r = resource_apply_momentum (var_value var) momentum_var 1
                   (tscale (scaled_lr rs self g var c)
                      (snd (compute_trust_ratio rs self g var
                              (c_eeta c) (c_epsilon c) (c_weight_decay c))))
                   (c_momentum c) (use_nesterov self)).
Proof.
  split; [reflexivity|].
  intros grad r Happly. destruct grad as [g|values indices]; [|discriminate].
  unfold apply_gradient in Happly.
  destruct (update_coefficients self apply_state n) as [c|] eqn:Hc.
  - rewrite (resource_apply_dense_unfold rs self g var momentum_var
               apply_state n c Hc) in Happly.
    injection Happly as <-. exists g, c. repeat split.
  - unfold resource_apply_dense in Happly. rewrite Hc in Happly. discriminate.
Qed.

Lemma sparse_path_unsupported_witness :
  let self := assign_fields default_backend_epsilon scenario_args in
  exists g c,
    DenseGrad [1] = DenseGrad g
    /\ update_coefficients self None 0 = Some c
    /\ ([4 - 4 / 10 / (1 + default_backend_epsilon)],
        [4 / 10 / (1 + default_backend_epsilon)])
       = resource_apply_momentum (var_value scenario_variable) [0] 1
           (tscale (scaled_lr literal_search self g scenario_variable c)
              (snd (compute_trust_ratio literal_search self g scenario_variable
                      (c_eeta c) (c_epsilon c) (c_weight_decay c))))
           (c_momentum c) (use_nesterov self).
Proof.
  apply (proj2 (sparse_path_unsupported literal_search
                  (assign_fields default_backend_epsilon scenario_args)
                  scenario_variable [0] None 0) (DenseGrad [1])).
  unfold apply_gradient. rewrite scenario_apply. reflexivity.
Defined.

(** *** The ratio formula on floating-point numbers *)

(** The nested [array_ops.where] of [compute_trust_ratio] in the compute
    precision [d]: every operation is rounded to the nearest number of the
    dtype, ties to even, in the order the expression is written. *)
Definition trust_ratio_where_fp (d : dtype)
           (w_norm g_norm eeta_t weight_decay_t epsilon_t : spec_float) : spec_float :=
  let p := fst (format_of d) in
  let em := snd (format_of d) in
  if SFltb (S754_zero false) w_norm
  then if SFltb (S754_zero false) g_norm
       then SFdiv p em (SFmul p em eeta_t w_norm)
              (SFadd p em (SFadd p em g_norm (SFmul p em weight_decay_t w_norm))
                 epsilon_t)
       else SFone p em
  else SFone p em.

(** The Python floats [0.001], [0.0001] and [1e-7], binary64 numbers. *)
Definition py_0_001 : spec_float := S754_finite false 4611686018427388 (-62).
Definition py_0_0001 : spec_float := S754_finite false 7378697629483821 (-66).
Definition py_1e_7 : spec_float := S754_finite false 7555786372591432 (-76).

(** In float32, with the default eeta 0.001 and weight decay 0.0001, the
    fuzz factor 1e-7 as epsilon and a gradient of norm 1, the variable norm
    12188907 * 2^-18 (about 46.497) gives the ratio 12423674 * 2^-28 and the
    next larger float32 norm gives the smaller ratio 12423673 * 2^-28. *)
Lemma trust_ratio_fp_not_monotone :
  let eta := convert_float_to float32 py_0_001 in
  let wd := convert_float_to float32 py_0_0001 in
  let eps := convert_float_to float32 py_1e_7 in
  let g := SFone 24 128 in
  let w1 := S754_finite false 12188907 (-18) in
  let w2 := S754_finite false 12188908 (-18) in
  SFltb (S754_zero false) w1 = true
  /\ SFltb w1 w2 = true
  /\ trust_ratio_where_fp float32 w1 g eta wd eps
     = S754_finite false 12423674 (-28)
  /\ trust_ratio_where_fp float32 w2 g eta wd eps
     = S754_finite false 12423673 (-28)
  /\ SFltb (trust_ratio_where_fp float32 w2 g eta wd eps)
       (trust_ratio_where_fp float32 w1 g eta wd eps) = true.
Proof. vm_compute. repeat split. Qed.

Definition no_adapt_bias_args : init_args :=
  make_args (1 / 10) (1 / 2) 1 1 (PyFloat 1) None (Some ["bias"%string]) false.

Lemma dense_step_without_momentum_witness :
  let self := assign_fields default_backend_epsilon scenario_args in
  let c := scenario_coefficients default_backend_epsilon in
  let update :=
    tscale (scaled_lr literal_search self [1] scenario_variable c)
      (snd (compute_trust_ratio literal_search self [1] scenario_variable
              (c_eeta c) (c_epsilon c) (c_weight_decay c))) in
  resource_apply_dense literal_search self [1] scenario_variable [0] None 0
  = Some (map2 Rminus (var_value scenario_variable) update, update).
Proof.
  apply (dense_step_without_momentum literal_search
           (assign_fields default_backend_epsilon scenario_args)
           [1] scenario_variable [0] None 0
           (scenario_coefficients default_backend_epsilon)).
  - apply scenario_prepare.
  - reflexivity.
  - reflexivity.
  - reflexivity.
Defined.

Lemma unadapted_variable_plain_momentum_witness :
  let self := assign_fields default_backend_epsilon no_adapt_bias_args in
  let c := scenario_coefficients default_backend_epsilon in
  (forall eta eps wd,
     compute_trust_ratio literal_search self [1] bias_variable eta eps wd = (1, [1]))
  /\ resource_apply_dense literal_search self [1] bias_variable [0] (Some c) 0
     = Some (resource_apply_momentum (var_value bias_variable) [0] 1
               (tscale (lr_t c) [1]) (c_momentum c) (use_nesterov self)).
Proof.
  apply (unadapted_variable_plain_momentum literal_search
           (assign_fields default_backend_epsilon no_adapt_bias_args)
           [1] bias_variable [0]
           (Some (scenario_coefficients default_backend_epsilon)) 0
           (scenario_coefficients default_backend_epsilon)).
  - reflexivity.
  - reflexivity.
Defined.

Definition decayed_args : init_args :=
  make_args (1 / 10) 0 1 1 (PyFloat 1) None None false.

Lemma fallback_ratio_on_zero_tensors_witness :
  fst (compute_trust_ratio literal_search
         (assign_fields default_backend_epsilon decayed_args)
         [0] scenario_variable 1 1 1) = 1.
Proof.
  apply (fallback_ratio_on_zero_tensors literal_search
           (assign_fields default_backend_epsilon decayed_args)
           [0] scenario_variable 1 1 1).
  - reflexivity.
  - right. constructor; [reflexivity|constructor].
Defined.

Lemma zero_gradient_still_decays_witness :
  compute_trust_ratio literal_search
    (assign_fields default_backend_epsilon decayed_args)
    (repeat 0 (length (var_value scenario_variable))) scenario_variable 1 1 1
  = (1, tscale 1 (var_value scenario_variable)).
Proof.
  apply (zero_gradient_still_decays literal_search
           (assign_fields default_backend_epsilon decayed_args)
           scenario_variable 1 1 1); reflexivity.
Defined.

(** *** Configuration round trips *)

(** X16. Exporting the configuration of an optimizer rebuilt from an export
    gives the export again: what [get_config] writes is stable under
    construction, the stored epsilon included. *)
Theorem get_config_stable (ke : R) (a : init_args) (self : optimizer) :
  init ke a = inr self ->
  exists restored,
    from_config ke (get_config self) = inr restored
    /\ get_config restored = get_config self.
Proof.
  intros Hinit. apply init_ok in Hinit as [_ ->].
  unfold from_config. rewrite args_of_config_get_config.
  rewrite init_two_precisions by reflexivity.
  eexists. split; [reflexivity|].
  unfold get_config.
  cbn [name learning_rate weight_decay decay momentum eeta epsilon m_dtype
       assign_fields arg_name arg_learning_rate arg_weight_decay arg_momentum
       arg_eeta arg_epsilon arg_m_dtype kwarg_lr kwarg_decay].
  rewrite py_or_idempotent. reflexivity.
Qed.

Lemma get_config_stable_witness :
  exists restored,
    from_config default_backend_epsilon
      (get_config (assign_fields default_backend_epsilon default_args))
    = inr restored
    /\ get_config restored
       = get_config (assign_fields default_backend_epsilon default_args).
Proof.
  apply (get_config_stable default_backend_epsilon default_args).
  reflexivity.
Defined.

End LARS.
